(** * msgdispatcher: the dispatcher client and its topic-to-manager registry

    A shallow embedding of [pkg/mq/msgdispatcher/client.go].

    The client owns a concurrent map from physical channel names to
    [DispatcherManager]s.  Managers are Go interface values, i.e. references
    to mutable objects, so the model keeps them in an explicit heap and the
    registry stores references.  Every method of the client is written once,
    as a program over the atomic operations it performs (the calls on the
    concurrent map and on a manager); the program is then run either to
    completion (a sequential caller) or interleaved with other programs (the
    concurrent callers the map is there for).  Logging is not modelled. *)

From Stdlib Require Import ZArith Lia.
From stdpp Require Import gmap strings list fin_maps.

Local Open Scope Z_scope.

(** ** Types the client imports *)

(** Modelled from the spec: [mqwrapper.SubscriptionInitialPosition], the
    subscription policy handed through to the manager; its declaration is
    not among the sources. *)
Inductive SubPos : Type :=
| SubscriptionPositionLatest
| SubscriptionPositionEarliest
| SubscriptionPositionUnknown.

(** References to managers allocated by [NewDispatcherManager]. *)
Abbreviation mgr_ref := nat (only parsing).

(** The [DispatcherManager] interface, as far as the client calls it.  A
    method that mutates its receiver returns the new receiver state.  [Add]
    returns Go's pair [(ch, err)].  [Run] is only ever spawned as a
    goroutine; the spawn is an event of the client, see [GoRun]. *)
Class DispatcherManager (Pos Chan Err M : Type) : Type := {
  Add : M → string → option Pos → SubPos → M * (option Chan * option Err);
  Remove : M → string → M;
  Num : M → Z;
  Close : M → M
}.

(** [type client struct]. *)
Record client (Factory : Type) : Type := mkClient {
  role : string;
  nodeID : Z;
  managers : gmap string nat;
  factory : Factory
}.
Arguments mkClient {Factory}.
Arguments role {Factory}.
Arguments nodeID {Factory}.
Arguments managers {Factory}.
Arguments factory {Factory}.

(** What the client has done to the registry and to managers, oldest first. *)
Inductive event : Type :=
| EvNew (manager : mgr_ref) (pchannel : string)
| EvInsert (pchannel : string) (manager : mgr_ref)
| EvRun (manager : mgr_ref)
| EvAdd (manager : mgr_ref) (vchannel : string)
| EvRemove (manager : mgr_ref) (vchannel : string)
| EvClose (manager : mgr_ref)
| EvGetAndRemove (pchannel : string).

Global Instance event_eq_dec : EqDecision event.
Proof. solve_decision. Defined.

(** The process state a client method runs in. *)
Record state (Factory M : Type) : Type := mkState {
  cl : client Factory;
  heap : gmap nat M;
  trace : list event
}.
Arguments mkState {Factory M}.
Arguments cl {Factory M}.
Arguments heap {Factory M}.
Arguments trace {Factory M}.

(** The order in which [Range] visits the entries of a map is not
    specified and differs from run to run.  A visit is told by its picks:
    each pick names, by its index among the entries not yet visited (taken
    modulo their number), the entry visited next; when the picks run out
    the rest is visited as it stands.  Every list of picks gives an order
    of all the entries, and every order is given by some picks. *)
Fixpoint arrange {A : Type} (picks : list nat) (l : list A) : list A :=
  match picks with
  | [] => l
  | i :: picks' =>
      let k := (i mod length l)%nat in
      match l !! k with
      | Some x => x :: arrange picks' (delete k l)
      | None => l
      end
  end.

Section Client.
Context {Pos Chan Err Factory M : Type}.
Context `{!DispatcherManager Pos Chan Err M}.

(** [funcutil.ToPhysicalChannel] and [NewDispatcherManager] are declared
    outside the sources at hand; the client is parametric in them. *)
Variable ToPhysicalChannel : string → string.
Variable NewDispatcherManager : string → string → Z → Factory → M.

Abbreviation st := (state Factory M).

(** [NewClient]. *)
Definition NewClient (f : Factory) (r : string) (n : Z) : st :=
  mkState (mkClient r n ∅ f) ∅ [].

Definition set_managers (g : gmap string nat → gmap string nat) (σ : st) : st :=
  mkState (mkClient (role (cl σ)) (nodeID (cl σ)) (g (managers (cl σ)))
                    (factory (cl σ)))
          (heap σ) (trace σ).

Definition set_heap (g : gmap nat M → gmap nat M) (σ : st) : st :=
  mkState (cl σ) (g (heap σ)) (trace σ).

Definition emit (e : event) (σ : st) : st :=
  mkState (cl σ) (heap σ) (trace σ ++ [e]).

(** ** Atomic operations *)

Inductive op : Type → Type :=
| MapGet (pchannel : string) : op (option mgr_ref)
| MapInsert (pchannel : string) (manager : mgr_ref) : op unit
| MapGetAndRemove (pchannel : string) : op unit
| MapRange (picks : list nat) : op (list (string * mgr_ref))
| MgrNew (pchannel : string) : op mgr_ref
| GoRun (manager : mgr_ref) : op unit
| MgrAdd (manager : mgr_ref) (vchannel : string) (pos : option Pos)
         (subPos : SubPos) : op (option Chan * option Err)
| MgrRemove (manager : mgr_ref) (vchannel : string) : op unit
| MgrNum (manager : mgr_ref) : op Z
| MgrClose (manager : mgr_ref) : op unit.

(** One atomic operation.  A call on a reference that is not allocated
    gets stuck ([None]); allocated references never become dangling. *)
Definition exec {X : Type} (o : op X) (σ : st) : option (st * X) :=
  match o in op X return option (st * X) with
  | MapGet p => Some (σ, managers (cl σ) !! p)
  | MapInsert p r => Some (emit (EvInsert p r) (set_managers (insert p r) σ), tt)
  | MapGetAndRemove p =>
      Some (emit (EvGetAndRemove p) (set_managers (delete p) σ), tt)
  | MapRange picks => Some (σ, arrange picks (map_to_list (managers (cl σ))))
  | MgrNew p =>
      let r := fresh (dom (heap σ)) in
      let m := NewDispatcherManager p (role (cl σ)) (nodeID (cl σ))
                                    (factory (cl σ)) in
      Some (emit (EvNew r p) (set_heap (insert r m) σ), r)
  | GoRun r =>
      match heap σ !! r with
      | Some _ => Some (emit (EvRun r) σ, tt)
      | None => None
      end
  | MgrAdd r v pos subPos =>
      match heap σ !! r with
      | Some m =>
          let '(m', res) := Add m v pos subPos in
          Some (emit (EvAdd r v) (set_heap (insert r m') σ), res)
      | None => None
      end
  | MgrRemove r v =>
      match heap σ !! r with
      | Some m => Some (emit (EvRemove r v) (set_heap (insert r (Remove m v)) σ), tt)
      | None => None
      end
  | MgrNum r =>
      match heap σ !! r with
      | Some m => Some (σ, Num m)
      | None => None
      end
  | MgrClose r =>
      match heap σ !! r with
      | Some m => Some (emit (EvClose r) (set_heap (insert r (Close m)) σ), tt)
      | None => None
      end
  end.

(** ** Programs *)

Inductive prog (A : Type) : Type :=
| Ret (a : A)
| Vis {X : Type} (o : op X) (k : X → prog A).
Arguments Ret {A}.
Arguments Vis {A X}.

Fixpoint bind {A B : Type} (c : prog A) (f : A → prog B) : prog B :=
  match c with
  | Ret a => f a
  | Vis o k => Vis o (λ x, bind (k x) f)
  end.

Definition call {X : Type} (o : op X) : prog X := Vis o Ret.

Fixpoint run {A : Type} (c : prog A) (σ : st) : option (st * A) :=
  match c with
  | Ret a => Some (σ, a)
  | Vis o k =>
      match exec o σ with
      | Some (σ', x) => run (k x) σ'
      | None => None
      end
  end.

Fixpoint for_each {A : Type} (l : list A) (f : A → prog unit) : prog unit :=
  match l with
  | [] => Ret tt
  | a :: l' => bind (f a) (λ _, for_each l' f)
  end.

Global Instance prog_ret : MRet prog := λ A a, Ret a.
Global Instance prog_bind : MBind prog := λ A B f c, bind c f.

(** ** The client's methods *)

(** [func (c *client) Register]. *)
Definition Register (vchannel : string) (pos : option Pos) (subPos : SubPos)
  : prog (option Chan * option Err) :=
  let pchannel := ToPhysicalChannel vchannel in
  got ← call (MapGet pchannel);
  manager ← match got with
            | Some manager => Ret manager
            | None =>
                manager ← call (MgrNew pchannel);
                call (MapInsert pchannel manager);;
                call (GoRun manager);;
                Ret manager
            end;
  res ← call (MgrAdd manager vchannel pos subPos);
  match res.2 with
  | Some err =>
      n ← call (MgrNum manager);
      (if decide (n = 0)
       then call (MgrClose manager);; call (MapGetAndRemove pchannel)
       else Ret tt);;
      Ret (None, Some err)
  | None => Ret (res.1, None)
  end.

(** [func (c *client) Deregister]. *)
Definition Deregister (vchannel : string) : prog unit :=
  let pchannel := ToPhysicalChannel vchannel in
  got ← call (MapGet pchannel);
  match got with
  | Some manager =>
      call (MgrRemove manager vchannel);;
      n ← call (MgrNum manager);
      if decide (n = 0)
      then call (MgrClose manager);; call (MapGetAndRemove pchannel)
      else Ret tt
  | None => Ret tt
  end.

(** [func (c *client) Close]: the callback of [Range] always returns
    [true], so every entry is visited, in the order the picks of this call
    stand for. *)
Definition ClientClose (picks : list nat) : prog unit :=
  entries ← call (MapRange picks);
  for_each entries (λ e, call (MapGetAndRemove e.1);; call (MgrClose e.2)).

(** ** Running a method to completion: auxiliary notions *)

(** What [Register] leaves in the heap for a topic that had no manager:
    a function of the client's configuration and of the call alone. *)
Definition first_registration (c : client Factory) (vchannel : string)
    (pos : option Pos) (subPos : SubPos) : M :=
  let m0 := NewDispatcherManager (ToPhysicalChannel vchannel) (role c)
                                 (nodeID c) (factory c) in
  let m1 := (Add m0 vchannel pos subPos).1 in
  match (Add m0 vchannel pos subPos).2.2 with
  | Some _ => if decide (Num m1 = 0) then Close m1 else m1
  | None => m1
  end.

(** The manager [Register] works on: the registered one, or else a new
    one at a fresh reference. *)
Definition manager_for (σ : st) (pchannel : string) : mgr_ref * option M :=
  match managers (cl σ) !! pchannel with
  | Some r => (r, heap σ !! r)
  | None =>
      (fresh (dom (heap σ)),
       Some (NewDispatcherManager pchannel (role (cl σ)) (nodeID (cl σ))
                                  (factory (cl σ))))
  end.

(** The state in which [Register] calls [Add]. *)
Definition before_add (σ : st) (pchannel : string) : st :=
  match managers (cl σ) !! pchannel with
  | Some _ => σ
  | None =>
      let r := fresh (dom (heap σ)) in
      let m := NewDispatcherManager pchannel (role (cl σ)) (nodeID (cl σ))
                                    (factory (cl σ)) in
      emit (EvRun r)
        (emit (EvInsert pchannel r)
           (set_managers (insert pchannel r)
              (emit (EvNew r pchannel) (set_heap (insert r m) σ))))
  end.

(** ** Concurrent callers

    The registry is a [typeutil.ConcurrentMap] and a manager guards its
    own state, so each operation of [op] that [Register] and [Deregister]
    perform is atomic; nothing in the client makes a sequence of them
    atomic.  ([Range] is not atomic; [Close] is only run by itself
    here.)  Goroutines calling into the client are a pool of programs; a
    schedule names, step by step, the goroutine that performs its next
    operation. *)

Definition pool (A : Type) : Type := list (prog A).

Definition step_thread {A : Type} (i : nat) (c : st * pool A)
  : option (st * pool A) :=
  match c.2 !! i with
  | Some (Vis o k) =>
      match exec o c.1 with
      | Some (σ', x) => Some (σ', <[i := k x]> c.2)
      | None => None
      end
  | Some (Ret _) => None
  | None => None
  end.

Fixpoint run_schedule {A : Type} (sched : list nat) (c : st * pool A)
  : option (st * pool A) :=
  match sched with
  | [] => Some c
  | i :: sched' =>
      match step_thread i c with
      | Some c' => run_schedule sched' c'
      | None => None
      end
  end.

(** What a goroutine returned, once it is done. *)
Definition returned {A : Type} (c : prog A) : option A :=
  match c with
  | Ret a => Some a
  | Vis _ _ => None
  end.

(** The managers the client has created so far. *)
Definition created (pchannel : string) (t : list event) : list mgr_ref :=
  omap (λ e, match e with
             | EvNew r p => if decide (p = pchannel) then Some r else None
             | _ => None
             end) t.

End Client.

Arguments Ret {Pos Chan Err A} a.
Arguments Vis {Pos Chan Err A X} o k.

(** ** The manager of one physical topic

    [manager.go], [dispatcher.go] and [target.go] are not among the sources
    at hand.  The definitions of this module follow sections 3, 4.2, 4.3, 6
    and 7 of the specification instead. *)
Module SpecManager.

(** Modelled from the spec: the error taxonomy of section 7; the missing
    part is the set of errors [Add] and the transport can return. *)
Inductive DispatchError : Type :=
| DuplicateRegistration
| TransportUnavailable
| PositionInvalid
| SlowConsumerEvicted.

Global Instance DispatchError_eq_dec : EqDecision DispatchError.
Proof. solve_decision. Defined.

(** Modelled from the spec: the transport collaborator of section 6 and
    the policy constants of section 9, which stand in for the missing
    [msgstream.Factory].  [subscribe topic pos] is [None] when a consumer
    is obtained and the error otherwise; [resolve] picks the concrete
    start position from the optional position and the policy;
    [tolerance] is the window within which main covers a position. *)
Record Factory : Type := mkFactory {
  subscribe : string → Z → option DispatchError;
  resolve : string → option Z → SubPos → Z;
  tolerance : Z
}.

(** Modelled from the spec: the state of an output queue, missing with
    [target.go].  A queue is closed by [Remove] or [Close], or by the
    dispatcher with the slow-consumer indication. *)
Inductive queue : Type := QOpen | QClosed | QEvicted.

Global Instance queue_eq_dec : EqDecision queue.
Proof. solve_decision. Defined.

(** Modelled from the spec: the Target of sections 3 and 4.4, missing with
    [target.go].  The output queue is named by its index in the queue
    table of the owning manager. *)
Record Target : Type := mkTarget {
  tg_vchannel : string;
  tg_pos : Z;
  tg_ch : nat
}.

(** Modelled from the spec: the Dispatcher of section 3, missing with
    [dispatcher.go].  A dispatcher stands for its one transport consumer;
    its kind is the place the manager keeps it in. *)
Record Dispatcher : Type := mkDispatcher {
  d_cursor : Z;
  d_targets : list Target
}.

(** Modelled from the spec: the DispatcherManager of section 3, missing
    with [manager.go]. *)
Record manager : Type := mkManager {
  m_pchannel : string;
  m_role : string;
  m_nodeID : Z;
  m_factory : Factory;
  m_main : option Dispatcher;
  m_solos : list Dispatcher;
  m_queues : list queue;
  m_closed : bool
}.

(** Modelled from the spec: [NewDispatcherManager], missing with
    [manager.go]; a manager starts with no dispatcher and no target. *)
Definition NewDispatcherManager (pchannel role : string) (nodeID : Z)
    (f : Factory) : manager :=
  mkManager pchannel role nodeID f None [] [] false.

Definition main_targets (m : manager) : list Target :=
  from_option d_targets [] (m_main m).

Definition solo_targets (m : manager) : list Target :=
  concat (d_targets <$> m_solos m).

Definition targets (m : manager) : list Target :=
  main_targets m ++ solo_targets m.

Definition vchannels (m : manager) : list string :=
  tg_vchannel <$> targets m.

Definition set_dispatchers (mn : option Dispatcher) (ss : list Dispatcher)
    (qs : list queue) (m : manager) : manager :=
  mkManager (m_pchannel m) (m_role m) (m_nodeID m) (m_factory m)
            mn ss qs (m_closed m).

(** Modelled from the spec: the tolerance window of section 4.2, missing
    with [manager.go]: two positions at most [tol] apart. *)
Definition within (tol a b : Z) : bool := bool_decide (Z.abs (a - b) ≤ tol).

(** Modelled from the spec: [Add] of section 4.2, missing with
    [manager.go].  A subscription registered anywhere under the topic is
    refused; the first dispatcher becomes main; a position within the
    tolerance window of main's cursor attaches to main; any other
    position gets a solo dispatcher of its own.  A dispatcher is created
    by subscribing, which can fail. *)
Definition Add (m : manager) (vchannel : string) (pos : option Z)
    (subPos : SubPos) : manager * (option nat * option DispatchError) :=
  if decide (vchannel ∈ vchannels m)
  then (m, (None, Some DuplicateRegistration))
  else
    let f := m_factory m in
    let p := resolve f (m_pchannel m) pos subPos in
    let ch := length (m_queues m) in
    let t := mkTarget vchannel p ch in
    match m_main m with
    | None =>
        match subscribe f (m_pchannel m) p with
        | Some err => (m, (None, Some err))
        | None =>
            (set_dispatchers (Some (mkDispatcher p [t])) (m_solos m)
                             (m_queues m ++ [QOpen]) m,
             (Some ch, None))
        end
    | Some d =>
        if within (tolerance f) p (d_cursor d)
        then (set_dispatchers
                (Some (mkDispatcher (d_cursor d) (d_targets d ++ [t])))
                (m_solos m) (m_queues m ++ [QOpen]) m,
              (Some ch, None))
        else
          match subscribe f (m_pchannel m) p with
          | Some err => (m, (None, Some err))
          | None =>
              (set_dispatchers (m_main m)
                               (m_solos m ++ [mkDispatcher p [t]])
                               (m_queues m ++ [QOpen]) m,
               (Some ch, None))
          end
    end.

(** Modelled from the spec: detaching a target from a dispatcher (section
    4.2), missing with [dispatcher.go]. *)
Definition detach (vchannel : string) (d : Dispatcher) : Dispatcher :=
  mkDispatcher (d_cursor d)
               (filter (λ t, tg_vchannel t ≠ vchannel) (d_targets d)).

Definition has_targets (d : Dispatcher) : bool :=
  match d_targets d with [] => false | _ => true end.

(** Modelled from the spec: closing the output queue of a target (sections
    4.2 and 4.3), missing with [target.go]; the queues of the targets of
    [vchannel] get the status [q]. *)
Definition close_queues_of (vchannel : string) (q : queue) (ts : list Target)
    (qs : list queue) : list queue :=
  foldr (λ t acc, if decide (tg_vchannel t = vchannel)
                  then <[tg_ch t := q]> acc else acc) qs ts.

(** Modelled from the spec: the teardown of a solo dispatcher (section
    4.2), missing with [manager.go]; a solo after the removal of
    [vchannel], [None] when the removal has emptied it. *)
Definition detach_solo (vchannel : string) (d : Dispatcher)
  : option Dispatcher :=
  let d' := detach vchannel d in
  if has_targets d && negb (has_targets d') then None else Some d'.

(** Modelled from the spec: [Remove] of section 4.2, missing with
    [manager.go].  The target leaves the dispatcher that holds it and its
    output queue is closed; a solo dispatcher whose target set becomes
    empty is torn down; main stays. *)
Definition Remove (m : manager) (vchannel : string) : manager :=
  set_dispatchers
    (detach vchannel <$> m_main m)
    (omap (detach_solo vchannel) (m_solos m))
    (close_queues_of vchannel QClosed (targets m) (m_queues m))
    m.

(** Modelled from the spec: [Num] of section 4.2, missing with
    [manager.go]: the attached targets of main and of all solos. *)
Definition Num (m : manager) : Z :=
  Z.of_nat (length (main_targets m)
            + sum_list (length ∘ d_targets <$> m_solos m))%nat.

(** Modelled from the spec: [Close] of section 4.2, missing with
    [manager.go]: every dispatcher is stopped, its consumer released, and
    every output queue still open is closed. *)
Definition Close (m : manager) : manager :=
  mkManager (m_pchannel m) (m_role m) (m_nodeID m) (m_factory m)
            None []
            ((λ q, match q with QOpen => QClosed | _ => q end) <$> m_queues m)
            true.

(** Modelled from the spec: the eviction of section 4.3, missing with
    [dispatcher.go]: a target whose queue was not drained in time is
    detached and its queue closed with the slow-consumer indication. *)
Definition Evict (m : manager) (vchannel : string) : manager :=
  set_dispatchers
    (detach vchannel <$> m_main m)
    (detach vchannel <$> m_solos m)
    (close_queues_of vchannel QEvicted (targets m) (m_queues m))
    m.

(** Modelled from the spec: the cursor update of section 4.3, missing with
    [dispatcher.go]: main ([None]) or the [i]-th solo moves to the end
    position of the batch it has offered. *)
Definition Advance (m : manager) (which : option nat) (p : Z) : manager :=
  match which with
  | None =>
      set_dispatchers ((λ d, mkDispatcher p (d_targets d)) <$> m_main m)
                      (m_solos m) (m_queues m) m
  | Some i =>
      set_dispatchers (m_main m)
                      (alter (λ d, mkDispatcher p (d_targets d)) i (m_solos m))
                      (m_queues m) m
  end.

(** Modelled from the spec: one evaluation of the control loop [Run] of
    section 4.2, missing with [manager.go]: every solo whose cursor is
    within the tolerance window of main's cursor hands its targets to
    main and is torn down. *)
Definition Merge (m : manager) : manager :=
  match m_main m with
  | None => m
  | Some d =>
      let near s := within (tolerance (m_factory m)) (d_cursor s) (d_cursor d) in
      let merged := filter (λ s, near s = true) (m_solos m) in
      let rest := filter (λ s, near s ≠ true) (m_solos m) in
      set_dispatchers
        (Some (mkDispatcher (d_cursor d)
                            (d_targets d ++ concat (d_targets <$> merged))))
        rest (m_queues m) m
  end.

(** Modelled from the spec: what [Close] of section 4.2 leaves, missing
    with [manager.go]: no dispatcher, hence no transport consumer, and no
    open output queue. *)
Definition released (m : manager) : Prop :=
  m_main m = None ∧ m_solos m = [] ∧ (QOpen ∉ m_queues m) ∧ m_closed m = true.

Global Instance manager_DispatcherManager
  : DispatcherManager Z nat DispatchError manager :=
  Build_DispatcherManager Z nat DispatchError manager Add Remove Num Close.

End SpecManager.

(** ** The client over the manager of the specification *)
Section System.
Import SpecManager.

Variable ToPhysicalChannel : string → string.

Abbreviation sys := (state Factory manager).

Definition sys_run {A : Type} (c : prog A) (σ : sys) : option (sys * A) :=
  run NewDispatcherManager c σ.

(** A step a live manager takes by itself (its dispatchers and its
    control loop); a manager is live while the registry holds it. *)
Definition on_manager (pchannel : string) (f : manager → manager) (σ : sys)
  : sys :=
  match managers (cl σ) !! pchannel with
  | Some r => set_heap (alter f r) σ
  | None => σ
  end.

(** What happens on one physical topic: the calls of the client's users
    and the steps of the topic's manager. *)
Inductive action : Type :=
| ARegister (vchannel : string) (pos : option Z) (subPos : SubPos)
| ADeregister (vchannel : string)
| AEvict (vchannel : string)
| AAdvance (which : option nat) (p : Z)
| AMerge.

Definition subscription_of (a : action) : option string :=
  match a with
  | ARegister v _ _ | ADeregister v | AEvict v => Some v
  | AAdvance _ _ | AMerge => None
  end.

Definition on_topic (pchannel : string) (a : action) : Prop :=
  ∀ v, subscription_of a = Some v → ToPhysicalChannel v = pchannel.

(** The subscriptions that are live after an action, told from what the
    caller observes alone: a subscription is live from a [Register] that
    returned no error until it is deregistered or evicted. *)
Definition do_action (pchannel : string) (a : action)
    (c : sys * gset string) : option (sys * gset string) :=
  match a with
  | ARegister v pos subPos =>
      match sys_run (Register ToPhysicalChannel v pos subPos) c.1 with
      | Some (σ', (_, None)) => Some (σ', {[v]} ∪ c.2)
      | Some (σ', (_, Some _)) => Some (σ', c.2)
      | None => None
      end
  | ADeregister v =>
      match sys_run (Deregister ToPhysicalChannel v) c.1 with
      | Some (σ', _) => Some (σ', c.2 ∖ {[v]})
      | None => None
      end
  | AEvict v => Some (on_manager pchannel (λ m, Evict m v) c.1, c.2 ∖ {[v]})
  | AAdvance which p => Some (on_manager pchannel (λ m, Advance m which p) c.1, c.2)
  | AMerge => Some (on_manager pchannel Merge c.1, c.2)
  end.

Fixpoint do_actions (pchannel : string) (l : list action)
    (c : sys * gset string) : option (sys * gset string) :=
  match l with
  | [] => Some c
  | a :: l' =>
      match do_action pchannel a c with
      | Some c' => do_actions pchannel l' c'
      | None => None
      end
  end.

(** The manager registered for the topic holds exactly the live
    subscriptions, each once; with no manager registered, none is live. *)
Definition tracks (pchannel : string) (σ : sys) (live : gset string) : Prop :=
  match managers (cl σ) !! pchannel with
  | Some r =>
      ∃ m, heap σ !! r = Some m
           ∧ NoDup (vchannels m)
           ∧ list_to_set (vchannels m) = live
  | None => live = ∅
  end.

End System.

(** ** A concrete instance, for the examples *)
Module Example.
Import SpecManager.

(** Modelled from the spec: the naming transformation of section 6, a
    deterministic function from subscription names to topic names;
    [funcutil.ToPhysicalChannel] is not among the sources.  Here: the name
    up to its last underscore, or the whole name without one. *)
Fixpoint cut_last (s : string) : option string :=
  match s with
  | EmptyString => None
  | String c s' =>
      match cut_last s' with
      | Some r => Some (String c r)
      | None => if Ascii.eqb c (Ascii.ascii_of_nat 95) then Some EmptyString else None
      end
  end.

Definition ToPhysicalChannel (vchannel : string) : string :=
  default vchannel (cut_last vchannel).

(** A transport that retains positions from 10 on and whose latest
    position is 100; main covers positions up to 5 away from its cursor. *)
Definition transport : Factory :=
  mkFactory
    (λ _ p, if p <? 10 then Some PositionInvalid else None)
    (λ _ pos subPos,
       match pos with
       | Some p => p
       | None => match subPos with
                 | SubscriptionPositionEarliest => 10
                 | _ => 100
                 end
       end)
    5.

Definition fresh_client : state Factory manager :=
  NewClient transport "querynode" 1.

Abbreviation world := (state Factory manager).
Abbreviation threads :=
  (pool (Pos := Z) (Chan := nat) (Err := DispatchError)
        (option nat * option DispatchError)).

Definition register (vchannel : string) (pos : option Z) (subPos : SubPos)
  : prog (option nat * option DispatchError) :=
  Register ToPhysicalChannel vchannel pos subPos.

Definition deregister (vchannel : string)
  : prog (Pos := Z) (Chan := nat) (Err := DispatchError) unit :=
  Deregister ToPhysicalChannel vchannel.

(** The state a call leaves ([σ] itself if the call gets stuck). *)
Definition after {A : Type} (c : prog A) (σ : world) : world :=
  match sys_run c σ with
  | Some (σ', _) => σ'
  | None => σ
  end.

(** One subscription on topic p0, then two, then one more on topic p1. *)
Definition one_registered : world :=
  after (register "p0_v1" None SubscriptionPositionEarliest) fresh_client.

Definition two_registered : world :=
  after (register "p0_v2" None SubscriptionPositionEarliest) one_registered.

Definition two_topics : world :=
  after (register "p1_v1" None SubscriptionPositionLatest) two_registered.

(** The manager of p0 with its one target, on main at the earliest
    position, and the manager as [NewDispatcherManager] makes it. *)
Definition manager_one : manager :=
  mkManager "p0" "querynode" 1 transport
            (Some (mkDispatcher 10 [mkTarget "p0_v1" 10 0])) [] [QOpen] false.

Definition manager_new : manager :=
  NewDispatcherManager "p0" "querynode" 1 transport.

(** The one subscription of p0 evicted as a slow consumer. *)
Definition one_evicted : world :=
  on_manager "p0" (λ m, Evict m "p0_v1") one_registered.

(** Two goroutines registering on p0 for the first time, and a schedule
    in which both look the topic up before either has inserted. *)
Definition first_timers : threads :=
  [register "p0_v1" None SubscriptionPositionEarliest;
   register "p0_v2" None SubscriptionPositionEarliest].

Definition both_miss : list nat := [0; 1; 0; 0; 0; 0; 1; 1; 1; 1]%nat.

(** A goroutine whose [Add] fails (position 2 is no longer retained) and
    one whose [Add] succeeds on the manager the first has just created;
    a schedule in which the second [Add] falls between the first
    goroutine's [Num] and its [Close], and that schedule cut before the
    [Close]. *)
Definition failing_and_succeeding : threads :=
  [register "p0_v1" (Some 2) SubscriptionPositionUnknown;
   register "p0_v2" None SubscriptionPositionEarliest].

Definition add_between_num_and_close : list nat :=
  [0; 0; 0; 0; 1; 0; 0; 1; 0; 0]%nat.

Definition until_close : list nat := [0; 0; 0; 0; 1; 0; 0; 1]%nat.

(** Where a schedule takes the new client and a pool; the state, the
    pool and a manager of the outcome (defaults if the schedule gets
    stuck or the reference is not allocated). *)
Definition outcome (sched : list nat)
    (ts : threads)
  : option (world * threads) :=
  run_schedule NewDispatcherManager sched (fresh_client, ts).

Definition final_state (o : option (world * threads))
  : world :=
  from_option fst fresh_client o.

Definition final_pool (o : option (world * threads))
  : threads :=
  from_option snd [] o.

Definition manager_at (σ : world) (r : mgr_ref) : manager :=
  default manager_new (heap σ !! r).

Definition manager_two : manager := manager_at two_registered 0.

Definition scenario : list action :=
  [ARegister "p0_v1" None SubscriptionPositionEarliest;
   ARegister "p0_v2" (Some 50) SubscriptionPositionUnknown;
   ARegister "p0_v1" None SubscriptionPositionLatest;
   AAdvance None 48;
   AMerge;
   AEvict "p0_v2";
   ADeregister "p0_v1";
   ARegister "p0_v3" None SubscriptionPositionLatest].

(** The manager of p0 after its one subscription has been removed and
    another one added. *)
Definition manager_emptied : manager := Remove manager_one "p0_v1".

Definition manager_readded : manager :=
  (Add manager_emptied "p0_v2" None SubscriptionPositionEarliest).1.

(** A goroutine deregistering p0_v1 and one registering p0_v2. *)
Definition leaving_and_arriving
  : pool (Pos := Z) (Chan := nat) (Err := DispatchError)
         (option (option nat * option DispatchError)) :=
  [bind (deregister "p0_v1") (λ _, Ret None);
   bind (register "p0_v2" None SubscriptionPositionEarliest)
        (λ res, Ret (Some res))].

End Example.

(** ** Sequences of calls on one client *)

(** The manager an event is about. *)
Definition ref_of (e : event) : option mgr_ref :=
  match e with
  | EvNew r _ | EvInsert _ r | EvRun r | EvAdd r _ | EvRemove r _
  | EvClose r => Some r
  | EvGetAndRemove _ => None
  end.

(** How often the control loop of a manager has been spawned. *)
Definition runs (r : mgr_ref) (t : list event) : nat :=
  length (filter (λ e, e = EvRun r) t).

(** A call of a method of a manager, or the spawning of its [Run]. *)
Inductive manager_call : Type :=
| OnRun (manager : mgr_ref)
| OnAdd (manager : mgr_ref) (vchannel : string)
| OnRemove (manager : mgr_ref) (vchannel : string)
| OnNum (manager : mgr_ref)
| OnClose (manager : mgr_ref).

Definition callee (c : manager_call) : mgr_ref :=
  match c with
  | OnRun r | OnAdd r _ | OnRemove r _ | OnNum r | OnClose r => r
  end.

(** No call on a manager comes after the call of its [Close]. *)
Definition no_call_after_close (t : list manager_call) : Prop :=
  ∀ i j r c,
    t !! i = Some (OnClose r) → (i < j)%nat → t !! j = Some c →
    callee c ≠ r.

Section ClientCalls.
Context {Pos Chan Err Factory M : Type}.
Context `{!DispatcherManager Pos Chan Err M}.
Variable ToPhysicalChannel : string → string.
Variable NewDispatcherManager : string → string → Z → Factory → M.

(** A call of one of the three methods of [Client]; a call of [Close]
    comes with the order in which its [Range] visits the registry. *)
Inductive client_call : Type :=
| CallRegister (vchannel : string) (pos : option Pos) (subPos : SubPos)
| CallDeregister (vchannel : string)
| CallClose (picks : list nat).

(** One caller at a time: each call runs to its end before the next. *)
Definition do_call (c : client_call) (σ : state Factory M)
  : option (state Factory M) :=
  match c with
  | CallRegister v pos subPos =>
      fst <$> run NewDispatcherManager (Register ToPhysicalChannel v pos subPos) σ
  | CallDeregister v =>
      fst <$> run NewDispatcherManager (Deregister ToPhysicalChannel v) σ
  | CallClose picks => fst <$> run NewDispatcherManager (ClientClose picks) σ
  end.

Fixpoint do_calls (l : list client_call) (σ : state Factory M)
  : option (state Factory M) :=
  match l with
  | [] => Some σ
  | c :: l' =>
      match do_call c σ with
      | Some σ' => do_calls l' σ'
      | None => None
      end
  end.

(** The call on a manager that an operation is, if it is one. *)
Definition manager_call_of {X : Type} (o : op (Pos := Pos) (Chan := Chan) (Err := Err) X)
  : list manager_call :=
  match o with
  | GoRun r => [OnRun r]
  | MgrAdd r v _ _ => [OnAdd r v]
  | MgrRemove r v => [OnRemove r v]
  | MgrNum r => [OnNum r]
  | MgrClose r => [OnClose r]
  | MapGet _ | MapInsert _ _ | MapGetAndRemove _ | MapRange _ | MgrNew _ => []
  end.

(** The calls on managers that a program makes when run from a state, in
    the order it makes them. *)
Fixpoint calls_of {A : Type} (c : prog A) (σ : state Factory M)
  : list manager_call :=
  match c with
  | Ret _ => []
  | Vis o k =>
      match exec NewDispatcherManager o σ with
      | Some (σ', x) => manager_call_of o ++ calls_of (k x) σ'
      | None => []
      end
  end.

Definition calls_of_call (c : client_call) (σ : state Factory M)
  : list manager_call :=
  match c with
  | CallRegister v pos subPos =>
      calls_of (Register ToPhysicalChannel v pos subPos) σ
  | CallDeregister v => calls_of (Deregister ToPhysicalChannel v) σ
  | CallClose picks => calls_of (ClientClose picks) σ
  end.

(** The calls on managers of a sequence of client calls, one caller. *)
Fixpoint calls_of_all (l : list client_call) (σ : state Factory M)
  : list manager_call :=
  match l with
  | [] => []
  | c :: l' =>
      calls_of_call c σ
      ++ match do_call c σ with
         | Some σ' => calls_of_all l' σ'
         | None => []
         end
  end.

(** What a sequence of calls keeps true of the managers the client has
    created: events are about allocated managers only; a registered manager
    was created for its topic and has not been closed; an allocated manager
    was created, had its control loop spawned once, and is registered or
    closed; no manager was created twice. *)
Definition lifecycle (σ : state Factory M) : Prop :=
  (∀ e r, e ∈ trace σ → ref_of e = Some r → is_Some (heap σ !! r))
  ∧ (∀ p r, managers (cl σ) !! p = Some r →
       EvNew r p ∈ trace σ ∧ EvClose r ∉ trace σ)
  ∧ (∀ r, is_Some (heap σ !! r) →
       runs r (trace σ) = 1%nat
       ∧ ((∃ p, managers (cl σ) !! p = Some r) ∨ EvClose r ∈ trace σ))
  ∧ (∀ r p p', EvNew r p ∈ trace σ → EvNew r p' ∈ trace σ → p = p').

End ClientCalls.

(** A goroutine in [Deregister] and one in [Register]: the second looks
    the topic up and adds its target after the first has read [Num] and
    before it closes the manager. *)
Definition add_between_remove_and_close : list nat :=
  [0; 0; 0; 1; 1; 0; 0]%nat.

(** * nmq: the process-wide NatsMQ server

    A shallow embedding of [pkg/mq/msgstream/mqwrapper/nmq/nmq_server.go].
    The nats server, [paramtable] and the logger are outside the sources
    at hand: the server is a parameter, a configuration item is the value
    its accessor returns, and [log.Fatal] ends the run. *)
Module nmq.

(** Go's [int64] arithmetic: the result wrapped into the signed range. *)
Definition wrap64 (z : Z) : Z := (z + 2 ^ 63) mod 2 ^ 64 - 2 ^ 63.

(** [time.Millisecond], a [time.Duration] in nanoseconds. *)
Definition Millisecond : Z := 1000000.

(** The fields of [server.Options] that [ParseServerOption] sets. *)
Record Options : Type := mkOptions {
  Host : string;
  Port : Z;
  MaxPayload : Z;
  MaxPending : Z;
  JetStream : bool;
  JetStreamMaxStore : Z;
  StoreDir : string;
  Debug : bool;
  Logtime : bool;
  LogFile : string;
  LogSizeLimit : Z
}.

(** [type NatsMQConfig struct]. *)
Record NatsMQConfig : Type := mkNatsMQConfig {
  Opts : Options;
  InitializeTimeout : Z
}.

(** [params.NatsmqCfg], each item as the value of the accessor the code
    calls on it ([GetAsInt], [GetAsInt32], [GetAsInt64], [GetValue],
    [GetAsBool]). *)
Record NatsmqCfg : Type := mkNatsmqCfg {
  ServerPort : Z;
  ServerMaxPayload : Z;
  ServerMaxPending : Z;
  ServerMaxFileStore : Z;
  ServerStoreDir : string;
  ServerMonitorDebug : bool;
  ServerMonitorLogTime : bool;
  ServerMonitorLogFile : string;
  ServerMonitorLogSizeLimit : Z;
  ServerInitializeTimeout : Z
}.

(** [func ParseServerOption]. *)
Definition ParseServerOption (params : NatsmqCfg) : NatsMQConfig :=
  mkNatsMQConfig
    (mkOptions "127.0.0.1"
               (ServerPort params)
               (ServerMaxPayload params)
               (ServerMaxPending params)
               true
               (ServerMaxFileStore params)
               (ServerStoreDir params)
               (ServerMonitorDebug params)
               (ServerMonitorLogTime params)
               (ServerMonitorLogFile params)
               (ServerMonitorLogSizeLimit params))
    (wrap64 (ServerInitializeTimeout params * Millisecond)).

Section Server.
(** [*server.Server], with the two calls whose result the code looks at:
    [server.NewServer], [None] when it returns an error, and
    [ReadyForConnections]. *)
Variable Server : Type.
Variable NewServer : Options → option Server.
Variable ReadyForConnections : Server → Z → bool.

(** What has been done to servers, oldest first. *)
Inductive server_event : Type :=
| Started (s : Server)
| ShutDown (s : Server)
| WaitedForShutdown (s : Server).

(** The package variables [Nmq] and [once], and the calls made so far. *)
Record globals : Type := mkGlobals {
  Nmq : option Server;
  once : bool;
  calls : list server_event
}.

(** The package as the program starts. *)
Definition initial : globals := mkGlobals None false [].

(** A call returns, or the process ends in it ([log.Fatal], or the
    dereference of a nil configuration). *)
Inductive outcome : Type :=
| Returned (g : globals)
| Aborted.

(** [func MustInitNatsMQ]; [cfg] is a pointer and may be nil. *)
Definition MustInitNatsMQ (cfg : option NatsMQConfig) (g : globals) : outcome :=
  if once g then Returned g
  else
    match cfg with
    | None => Aborted
    | Some c =>
        match NewServer (Opts c) with
        | None => Aborted
        | Some s =>
            if ReadyForConnections s (InitializeTimeout c)
            then Returned (mkGlobals (Some s) true (calls g ++ [Started s]))
            else Aborted
        end
    end.

(** [func CloseNatsMQ]. *)
Definition CloseNatsMQ (g : globals) : globals :=
  match Nmq g with
  | Some s => mkGlobals None (once g) (calls g ++ [ShutDown s; WaitedForShutdown s])
  | None => g
  end.

(** A call of one of the two functions on the package variables. *)
Inductive package_call : Type :=
| CallMustInit (cfg : option NatsMQConfig)
| CallClose.

(** Calls one after the other; the run ends with the first that aborts. *)
Fixpoint do_package_calls (l : list package_call) (g : globals) : outcome :=
  match l with
  | [] => Returned g
  | CallMustInit cfg :: l' =>
      match MustInitNatsMQ cfg g with
      | Returned g' => do_package_calls l' g'
      | Aborted => Aborted
      end
  | CallClose :: l' => do_package_calls l' (CloseNatsMQ g)
  end.

End Server.

Arguments Started {Server} s.
Arguments ShutDown {Server} s.
Arguments WaitedForShutdown {Server} s.
Arguments mkGlobals {Server} Nmq once calls.
Arguments Nmq {Server} g.
Arguments once {Server} g.
Arguments calls {Server} g.
Arguments initial {Server}.
Arguments Returned {Server} g.
Arguments Aborted {Server}.

(** The configuration values that [TestGetServerOptionDefault] expects of
    the defaults, and a server for the examples: it is its options, it is
    made for a port between 1 and 65535, and it is ready within any
    positive timeout. *)
Definition default_params : NatsmqCfg :=
  mkNatsmqCfg 4222 8388608 67108864 17179869184 "/var/lib/milvus/nats"
              false true "" 0 4000.

Definition example_NewServer (o : Options) : option Options :=
  if bool_decide (0 < Port o < 65536) then Some o else None.

Definition example_Ready (s : Options) (timeout : Z) : bool :=
  bool_decide (0 < timeout).

Definition default_config : NatsMQConfig := ParseServerOption default_params.

Definition bad_config : NatsMQConfig :=
  mkNatsMQConfig (mkOptions "127.0.0.1" 0 0 0 true 0 "" false false "" 0) 0.

(** The package after the default server has been started, and a run of
    calls that starts it, closes it and tries again. *)
Definition default_started : globals Options :=
  mkGlobals (Some (Opts default_config)) true [Started (Opts default_config)].

Definition start_close_restart : list package_call :=
  [CallMustInit (Some default_config); CallClose;
   CallMustInit (Some bad_config); CallMustInit None; CallClose].

End nmq.

(** * The orders of a visit *)

Lemma arrange_perm {A : Type} (picks : list nat) (l : list A) :
  arrange picks l ≡ₚ l.
Proof.
  revert l. induction picks as [| i picks IH]; intros l; simpl; [done |].
  destruct (l !! (i mod length l)%nat) as [x |] eqn:Hx; [| done].
  rewrite IH. symmetry. by apply delete_Permutation.
Qed.

Lemma arrange_nil {A : Type} (picks : list nat) :
  arrange picks (@nil A) = [].
Proof. by destruct picks. Qed.

(** Every order of the entries is the order of some visit. *)
Lemma arrange_any_order {A : Type} (l l' : list A) :
  l ≡ₚ l' → ∃ picks, arrange picks l = l'.
Proof.
  revert l. induction l' as [| x l' IH]; intros l Hperm.
  - apply Permutation_nil_r in Hperm as ->. by exists [].
  - assert (x ∈ l) as Hin by (rewrite Hperm; left).
    apply list_elem_of_lookup in Hin as [k Hk].
    destruct (IH (delete k l)) as [picks Hpicks].
    { apply (Permutation_cons_inv (a := x)).
      by rewrite <- (delete_Permutation l k x Hk). }
    exists (k :: picks). simpl.
    rewrite Nat.mod_small by by eapply lookup_lt_Some.
    by rewrite Hk, Hpicks.
Qed.

(** * Properties of the client, for any manager *)
Section ClientFacts.
Context {Pos Chan Err Factory M : Type}.
Context `{!DispatcherManager Pos Chan Err M}.
Variable ToPhysicalChannel : string → string.
Variable NewDispatcherManager : string → string → Z → Factory → M.

Abbreviation st' := (state Factory M).
Abbreviation exec_prog := (run NewDispatcherManager).
Abbreviation mgr_for := (manager_for NewDispatcherManager).
Abbreviation pre_add := (before_add NewDispatcherManager).

Lemma run_bind {A B : Type} (c : prog A) (f : A → prog B) (σ : st') :
  exec_prog (bind c f) σ =
  match exec_prog c σ with
  | Some (σ', a) => exec_prog (f a) σ'
  | None => None
  end.
Proof.
  revert σ. induction c as [a | X o k IH]; intros σ; simpl; [done |].
  destruct (exec NewDispatcherManager o σ) as [[σ' x] |]; [apply IH | done].
Qed.

Ltac registry_simpl :=
  simpl;
  rewrite ?lookup_insert_eq, ?lookup_delete_eq, ?delete_insert_eq,
          ?insert_insert_eq, <- ?app_assoc;
  simpl.

Lemma fresh_not_allocated (σ : st') : heap σ !! fresh (dom (heap σ)) = None.
Proof. apply not_elem_of_dom, is_fresh. Qed.

Lemma before_add_heap (σ : st') (pchannel : string) (r : mgr_ref) (m : M) :
  mgr_for σ pchannel = (r, Some m) →
  heap (pre_add σ pchannel) !! r = Some m
  ∧ managers (cl (pre_add σ pchannel)) !! pchannel = Some r.
Proof.
  unfold manager_for, before_add.
  destruct (managers (cl σ) !! pchannel) as [r0 |] eqn:Hget; intros Hfor.
  - injection Hfor as -> Hm. by rewrite Hget.
  - injection Hfor as <- <-. simpl. by rewrite !lookup_insert_eq.
Qed.

(** [Register], run to completion, in one equation. *)
Lemma run_Register (σ : st') (vchannel : string) (pos : option Pos)
    (subPos : SubPos) (r : mgr_ref) (m0 : M) :
  let pchannel := ToPhysicalChannel vchannel in
  mgr_for σ pchannel = (r, Some m0) →
  exec_prog (Register ToPhysicalChannel vchannel pos subPos) σ =
  let σ1 := pre_add σ pchannel in
  let '(m1, res) := Add m0 vchannel pos subPos in
  let σ2 := emit (EvAdd r vchannel) (set_heap (insert r m1) σ1) in
  match res.2 with
  | Some err =>
      if decide (Num m1 = 0)
      then Some (emit (EvGetAndRemove pchannel)
                   (set_managers (delete pchannel)
                      (emit (EvClose r) (set_heap (insert r (Close m1)) σ2))),
                 (None, Some err))
      else Some (σ2, (None, Some err))
  | None => Some (σ2, (res.1, None))
  end.
Proof.
  intros pchannel Hfor.
  destruct (before_add_heap _ _ _ _ Hfor) as [Hheap _].
  unfold Register, manager_for, before_add in *. fold pchannel in Hfor, Hheap |- *.
  simpl.
  destruct (managers (cl σ) !! pchannel) as [r0 |] eqn:Hget; simpl.
  - injection Hfor as -> Hm. rewrite Hm.
    destruct (Add m0 vchannel pos subPos) as [m1 [ch [err |]]]; simpl; [| done].
    rewrite lookup_insert_eq. case_decide; simpl; [| done].
    by rewrite lookup_insert_eq.
  - injection Hfor as <- <-. simpl in Hheap.
    rewrite lookup_insert_eq. simpl. rewrite lookup_insert_eq.
    destruct (Add _ vchannel pos subPos) as [m1 [ch [err |]]]; simpl; [| done].
    rewrite lookup_insert_eq. case_decide; simpl; [| done].
    by rewrite lookup_insert_eq.
Qed.

(** [Deregister], run to completion, in one equation. *)
Lemma run_Deregister (σ : st') (vchannel : string) :
  let pchannel := ToPhysicalChannel vchannel in
  exec_prog (Deregister ToPhysicalChannel vchannel) σ =
  match managers (cl σ) !! pchannel with
  | None => Some (σ, tt)
  | Some r =>
      match heap σ !! r with
      | None => None
      | Some m =>
          let σ1 := emit (EvRemove r vchannel)
                      (set_heap (insert r (Remove m vchannel)) σ) in
          if decide (Num (Remove m vchannel) = 0)
          then Some (emit (EvGetAndRemove pchannel)
                       (set_managers (delete pchannel)
                          (emit (EvClose r)
                             (set_heap (insert r (Close (Remove m vchannel))) σ1))),
                     tt)
          else Some (σ1, tt)
      end
  end.
Proof.
  intros pchannel. unfold Deregister. fold pchannel. simpl.
  destruct (managers (cl σ) !! pchannel) as [r |]; simpl; [| done].
  destruct (heap σ !! r) as [m |]; simpl; [| done].
  rewrite lookup_insert_eq. case_decide; simpl; [| done].
  by rewrite lookup_insert_eq.
Qed.

Abbreviation first_reg := (first_registration ToPhysicalChannel NewDispatcherManager).

Lemma created_app (pchannel : string) (t1 t2 : list event) :
  created pchannel (t1 ++ t2) = created pchannel t1 ++ created pchannel t2.
Proof. unfold created. apply omap_app. Qed.

(** [Register] on a topic without a manager: the manager it leaves in the
    heap sits at a fresh reference and is [first_registration]. *)
Lemma Register_no_manager (σ : st') (vchannel : string) (pos : option Pos)
    (subPos : SubPos) :
  let pchannel := ToPhysicalChannel vchannel in
  let r := fresh (dom (heap σ)) in
  managers (cl σ) !! pchannel = None →
  ∃ σ' res,
    exec_prog (Register ToPhysicalChannel vchannel pos subPos) σ = Some (σ', res)
    ∧ heap σ' = <[r := first_reg (cl σ) vchannel pos subPos]> (heap σ)
    ∧ created pchannel (trace σ') = created pchannel (trace σ) ++ [r]
    ∧ (res.2 = None → managers (cl σ') !! pchannel = Some r)
    ∧ (∀ r', managers (cl σ') !! pchannel = Some r' → r' = r).
Proof.
  intros pchannel r Hget.
  assert (mgr_for σ pchannel = (r, Some (NewDispatcherManager pchannel
            (role (cl σ)) (nodeID (cl σ)) (factory (cl σ))))) as Hfor.
  { unfold manager_for. by rewrite Hget. }
  rewrite (run_Register _ _ _ _ _ _ Hfor). fold pchannel.
  unfold first_registration, before_add. fold pchannel. rewrite Hget. fold r.
  destruct (Add _ vchannel pos subPos) as [m1 [ch [err |]]]; simpl.
  - case_decide; eexists _, _; (split; [done |]); simpl; rewrite ?created_app; simpl;
      rewrite ?decide_True by done; simpl; rewrite ?app_nil_r.
    + rewrite !insert_insert_eq. split_and!; [done | done | done |].
      intros r'. by rewrite lookup_delete_eq.
    + rewrite !insert_insert_eq. split_and!; [done | done | done |].
      intros r'. rewrite lookup_insert_eq. congruence.
  - eexists _, _; (split; [done |]); simpl; rewrite ?created_app; simpl;
      rewrite ?decide_True by done; simpl; rewrite ?app_nil_r.
    rewrite !insert_insert_eq. split_and!; [done | done | |].
    + intros _. by rewrite lookup_insert_eq.
    + intros r'. rewrite lookup_insert_eq. congruence.
Qed.

(** C1: a [Deregister] after which the topic's manager holds no target
    closes that manager and takes it out of the registry; the next
    [Register] on the topic, for any subscription, then allocates a new
    manager at a reference never used before, whose state is that of a
    first registration and owes nothing to the old manager, which stays
    closed. *)
Theorem Deregister_last_then_Register_new (σ : st') (vchannel vchannel' : string)
    (pos : option Pos) (subPos : SubPos) (r : mgr_ref) (m : M) :
  let pchannel := ToPhysicalChannel vchannel in
  managers (cl σ) !! pchannel = Some r →
  heap σ !! r = Some m →
  Num (Remove m vchannel) = 0 →
  ToPhysicalChannel vchannel' = pchannel →
  ∃ σ1 σ2 res r',
    exec_prog (Deregister ToPhysicalChannel vchannel) σ = Some (σ1, tt)
    ∧ managers (cl σ1) = delete pchannel (managers (cl σ))
    ∧ heap σ1 = <[r := Close (Remove m vchannel)]> (heap σ)
    ∧ trace σ1 = trace σ ++ [EvRemove r vchannel; EvClose r; EvGetAndRemove pchannel]
    ∧ exec_prog (Register ToPhysicalChannel vchannel' pos subPos) σ1 = Some (σ2, res)
    ∧ r' ≠ r
    ∧ heap σ !! r' = None
    ∧ created pchannel (trace σ2) = created pchannel (trace σ) ++ [r']
    ∧ heap σ2 !! r' = Some (first_reg (cl σ) vchannel' pos subPos)
    ∧ heap σ2 !! r = Some (Close (Remove m vchannel))
    ∧ (res.2 = None → managers (cl σ2) !! pchannel = Some r')
    ∧ (∀ r'', managers (cl σ2) !! pchannel = Some r'' → r'' = r').
Proof.
  intros pchannel Hget Hheap Hnum Hsame.
  pose proof (run_Deregister σ vchannel) as Hrun.
  cbv zeta in Hrun. fold pchannel in Hrun.
  rewrite Hget, Hheap, decide_True in Hrun by done.
  match type of Hrun with _ = Some (?s, _) => set (σ1 := s) in * end.
  assert (managers (cl σ1) !! ToPhysicalChannel vchannel' = None) as Hgone.
  { rewrite Hsame. simpl. apply lookup_delete_eq. }
  destruct (Register_no_manager σ1 vchannel' pos subPos Hgone)
    as (σ2 & res & Hreg & Hheap2 & Hcreated & Hok & Honly).
  assert (heap σ1 = <[r := Close (Remove m vchannel)]> (heap σ)) as Hheap1.
  { simpl. by rewrite insert_insert_eq. }
  assert (dom (heap σ1) = dom (heap σ)) as Hdom.
  { rewrite Hheap1. apply dom_insert_lookup_L. by eexists. }
  rewrite Hdom, Hsame in *.
  set (r' := fresh (dom (heap σ))) in *.
  assert (heap σ !! r' = None) as Hfresh by apply fresh_not_allocated.
  assert (r' ≠ r) as Hne by congruence.
  exists σ1, σ2, res, r'. split_and!; try done.
  - unfold σ1. simpl. by rewrite <- !app_assoc.
  - rewrite Hcreated. unfold σ1. simpl. rewrite !created_app. simpl.
    by rewrite !app_nil_r.
  - rewrite Hheap2. by rewrite lookup_insert_eq.
  - rewrite Hheap2, lookup_insert_ne, Hheap1 by done. by rewrite lookup_insert_eq.
Qed.

(** C2: when [Add] fails and leaves the manager without a target,
    [Register] closes the manager, takes the topic out of the registry and
    returns a nil channel with the error of [Add]; closing and removal
    are the last things the call does. *)
Theorem Register_failed_empty_evicts (σ : st') (vchannel : string)
    (pos : option Pos) (subPos : SubPos) (r : mgr_ref) (m0 m1 : M)
    (ch : option Chan) (err : Err) :
  let pchannel := ToPhysicalChannel vchannel in
  mgr_for σ pchannel = (r, Some m0) →
  Add m0 vchannel pos subPos = (m1, (ch, Some err)) →
  Num m1 = 0 →
  ∃ σ' pre,
    exec_prog (Register ToPhysicalChannel vchannel pos subPos) σ
      = Some (σ', (None, Some err))
    ∧ managers (cl σ') = delete pchannel (managers (cl σ))
    ∧ managers (cl σ') !! pchannel = None
    ∧ heap σ' !! r = Some (Close m1)
    ∧ trace σ' = trace σ ++ pre
                   ++ [EvAdd r vchannel; EvClose r; EvGetAndRemove pchannel].
Proof.
  intros pchannel Hfor Hadd Hnum.
  rewrite (run_Register _ _ _ _ _ _ Hfor). fold pchannel.
  rewrite Hadd. simpl. rewrite decide_True by done.
  unfold manager_for, before_add in *.
  destruct (managers (cl σ) !! pchannel) as [r0 |] eqn:Hget.
  - injection Hfor as -> _. eexists _, []. split; [done |].
    split_and!; by registry_simpl.
  - injection Hfor as <- _.
    eexists _, [EvNew _ pchannel; EvInsert pchannel _; EvRun _].
    split; [done |]. split_and!; by registry_simpl.
Qed.

(** C10: when [Add] fails but the manager still holds a target,
    [Register] leaves the manager registered, with the state [Add] left,
    and neither closes it nor removes anything from the registry; and
    when the manager still holds a target after [Remove], [Deregister]
    changes nothing but that manager's state. *)
Theorem nonempty_manager_stays (σ : st') (vchannel : string) :
  let pchannel := ToPhysicalChannel vchannel in
  (∀ (pos : option Pos) (subPos : SubPos) (r : mgr_ref) (m0 m1 : M)
     (ch : option Chan) (err : Err),
     mgr_for σ pchannel = (r, Some m0) →
     Add m0 vchannel pos subPos = (m1, (ch, Some err)) →
     Num m1 ≠ 0 →
     ∃ σ' pre,
       exec_prog (Register ToPhysicalChannel vchannel pos subPos) σ
         = Some (σ', (None, Some err))
       ∧ managers (cl σ') = <[pchannel := r]> (managers (cl σ))
       ∧ (managers (cl σ) !! pchannel = Some r → managers (cl σ') = managers (cl σ))
       ∧ heap σ' !! r = Some m1
       ∧ trace σ' = trace σ ++ pre ++ [EvAdd r vchannel]
       ∧ (∀ e, e ∈ pre → e ∈ [EvNew r pchannel; EvInsert pchannel r; EvRun r]))
  ∧ (∀ (r : mgr_ref) (m : M),
       managers (cl σ) !! pchannel = Some r →
       heap σ !! r = Some m →
       Num (Remove m vchannel) ≠ 0 →
       ∃ σ',
         exec_prog (Deregister ToPhysicalChannel vchannel) σ = Some (σ', tt)
         ∧ cl σ' = cl σ
         ∧ heap σ' = <[r := Remove m vchannel]> (heap σ)
         ∧ trace σ' = trace σ ++ [EvRemove r vchannel]).
Proof.
  intros pchannel. split.
  - intros pos subPos r m0 m1 ch err Hfor Hadd Hnum.
    rewrite (run_Register _ _ _ _ _ _ Hfor). fold pchannel.
    rewrite Hadd. simpl. rewrite decide_False by done.
    unfold manager_for, before_add in *.
    destruct (managers (cl σ) !! pchannel) as [r0 |] eqn:Hget.
    + injection Hfor as -> _. eexists _, []. split; [done |].
      split_and!; registry_simpl; try done.
      * by rewrite insert_id.
      * intros e He. by apply elem_of_nil in He.
    + injection Hfor as <- _.
      eexists _, [EvNew _ pchannel; EvInsert pchannel _; EvRun _].
      split; [done |]. split_and!; by registry_simpl.
  - intros r m Hget Hheap Hnum.
    pose proof (run_Deregister σ vchannel) as Hrun.
    cbv zeta in Hrun. fold pchannel in Hrun.
    rewrite Hget, Hheap, decide_False in Hrun by done.
    eexists. split; [exact Hrun |]. done.
Qed.

(** C8: [Register] on a topic without a manager allocates one at a fresh
    reference, registers it and spawns its control loop, once and in this
    order, and only then calls [Add] on it; on a topic with a manager it
    calls [Add] on the registered manager and neither allocates nor spawns
    anything. *)
Theorem Register_starts_loop_once (σ : st') (vchannel : string)
    (pos : option Pos) (subPos : SubPos) (r : mgr_ref) (m0 : M) :
  let pchannel := ToPhysicalChannel vchannel in
  mgr_for σ pchannel = (r, Some m0) →
  ∃ σ' res rest,
    exec_prog (Register ToPhysicalChannel vchannel pos subPos) σ = Some (σ', res)
    ∧ (rest = [] ∨ rest = [EvClose r; EvGetAndRemove pchannel])
    ∧ (managers (cl σ) !! pchannel = None →
         heap σ !! r = None
         ∧ trace σ' = trace σ ++ [EvNew r pchannel; EvInsert pchannel r;
                                  EvRun r; EvAdd r vchannel] ++ rest)
    ∧ (∀ r0, managers (cl σ) !! pchannel = Some r0 →
         r0 = r
         ∧ trace σ' = trace σ ++ [EvAdd r vchannel] ++ rest).
Proof.
  intros pchannel Hfor.
  rewrite (run_Register _ _ _ _ _ _ Hfor). fold pchannel.
  unfold manager_for, before_add in *.
  assert (managers (cl σ) !! pchannel = None → r = fresh (dom (heap σ))) as Hnew.
  { intros Hget. rewrite Hget in Hfor. by injection Hfor as <- _. }
  assert (∀ r0, managers (cl σ) !! pchannel = Some r0 → r0 = r) as Hold.
  { intros r0 Hget. rewrite Hget in Hfor. by injection Hfor as -> _. }
  destruct (Add m0 vchannel pos subPos) as [m1 [ch [err |]]]; simpl;
    [case_decide |].
  - exists (emit (EvGetAndRemove pchannel)
              (set_managers (delete pchannel)
                 (emit (EvClose r)
                    (set_heap (insert r (Close m1))
                       (emit (EvAdd r vchannel)
                          (set_heap (insert r m1) (pre_add σ pchannel))))))),
           (None, Some err), [EvClose r; EvGetAndRemove pchannel].
    unfold before_add.
    destruct (managers (cl σ) !! pchannel) as [r0 |] eqn:Hget;
      [specialize (Hold _ eq_refl) | specialize (Hnew eq_refl)]; subst r;
      split_and!; try done; try (by right); intros; split; try done;
      try congruence; try apply fresh_not_allocated; by registry_simpl.
  - exists (emit (EvAdd r vchannel) (set_heap (insert r m1) (pre_add σ pchannel))),
           (None, Some err), [].
    unfold before_add.
    destruct (managers (cl σ) !! pchannel) as [r0 |] eqn:Hget;
      [specialize (Hold _ eq_refl) | specialize (Hnew eq_refl)]; subst r;
      split_and!; try done; try (by left); intros; split; try done;
      try congruence; try apply fresh_not_allocated; by registry_simpl.
  - exists (emit (EvAdd r vchannel) (set_heap (insert r m1) (pre_add σ pchannel))),
           (ch, None), [].
    unfold before_add.
    destruct (managers (cl σ) !! pchannel) as [r0 |] eqn:Hget;
      [specialize (Hold _ eq_refl) | specialize (Hnew eq_refl)]; subst r;
      split_and!; try done; try (by left); intros; split; try done;
      try congruence; try apply fresh_not_allocated; by registry_simpl.
Qed.

(** C4, as the code has it: [Deregister] of a subscription whose topic has
    no manager changes nothing at all; when the topic has a manager that
    does not hold the subscription (so that [Remove] leaves it as it is)
    and that manager holds a target, the registry and every manager stay
    as they are and the call returns; and when that manager holds no
    target, the call closes it and takes it out of the registry, as any
    [Deregister] on its topic does. *)
Theorem Deregister_unknown_noop (σ : st') (vchannel : string) :
  let pchannel := ToPhysicalChannel vchannel in
  (managers (cl σ) !! pchannel = None →
     exec_prog (Deregister ToPhysicalChannel vchannel) σ = Some (σ, tt))
  ∧ (∀ (r : mgr_ref) (m : M),
       managers (cl σ) !! pchannel = Some r →
       heap σ !! r = Some m →
       Remove m vchannel = m →
       Num m ≠ 0 →
       ∃ σ',
         exec_prog (Deregister ToPhysicalChannel vchannel) σ = Some (σ', tt)
         ∧ cl σ' = cl σ
         ∧ heap σ' = heap σ)
  ∧ (∀ (r : mgr_ref) (m : M),
       managers (cl σ) !! pchannel = Some r →
       heap σ !! r = Some m →
       Remove m vchannel = m →
       Num m = 0 →
       ∃ σ',
         exec_prog (Deregister ToPhysicalChannel vchannel) σ = Some (σ', tt)
         ∧ managers (cl σ') = delete pchannel (managers (cl σ))
         ∧ heap σ' = <[r := Close m]> (heap σ)
         ∧ trace σ' = trace σ ++ [EvRemove r vchannel; EvClose r;
                                  EvGetAndRemove pchannel]).
Proof.
  intros pchannel.
  pose proof (run_Deregister σ vchannel) as Hrun.
  cbv zeta in Hrun. fold pchannel in Hrun. split_and!.
  - intros Hget. by rewrite Hget in Hrun.
  - intros r m Hget Hheap Hsame Hnum.
    rewrite Hget, Hheap, Hsame, decide_False in Hrun by done.
    eexists. split; [exact Hrun |]. simpl. split; [done |].
    by apply insert_id.
  - intros r m Hget Hheap Hsame Hnum.
    rewrite Hget, Hheap, Hsame, decide_True in Hrun by done.
    eexists. split; [exact Hrun |]. split_and!; by registry_simpl.
Qed.

(** The loop of [Close] over the entries [l] of the registry. *)
Lemma close_loop (released : M → Prop) (l : list (string * mgr_ref)) :
  (∀ m, released (Close m)) →
  ∀ σ : st',
    (∀ e, e ∈ l → is_Some (heap σ !! e.2)) →
    ∃ σ',
      exec_prog (for_each l (λ e, call (MapGetAndRemove e.1);;
                                  call (MgrClose e.2))) σ = Some (σ', tt)
      ∧ (∀ p, managers (cl σ') !! p =
              if decide (p ∈ l.*1) then None else managers (cl σ) !! p)
      ∧ dom (heap σ') = dom (heap σ)
      ∧ trace σ' = trace σ ++ flat_map (λ e, [EvGetAndRemove e.1; EvClose e.2]) l
      ∧ (∀ e, e ∈ l → ∃ m', heap σ' !! e.2 = Some m' ∧ released m')
      ∧ (∀ r m, heap σ !! r = Some m → released m →
           ∃ m', heap σ' !! r = Some m' ∧ released m').
Proof.
  intros Hrel. induction l as [| [p0 r0] l IH]; intros σ Halloc.
  - exists σ. split_and!; try done.
    + by rewrite app_nil_r.
    + intros e He. by apply elem_of_nil in He.
    + intros r m Hr Hm. by exists m.
  - destruct (Halloc (p0, r0)) as [m0 Hm0]; [by left |]. simpl in Hm0.
    set (σ1 := emit (EvClose r0)
                 (set_heap (insert r0 (Close m0))
                    (emit (EvGetAndRemove p0) (set_managers (delete p0) σ)))).
    assert (dom (heap σ1) = dom (heap σ)) as Hdom1.
    { simpl. apply dom_insert_lookup_L. by eexists. }
    destruct (IH σ1) as (σ' & Hrun & Hreg & Hdom & Htrace & Hclosed & Hkeep).
    { intros e He. apply elem_of_dom. rewrite Hdom1. apply elem_of_dom.
      apply Halloc. by right. }
    exists σ'. split_and!.
    + simpl. rewrite Hm0. simpl. fold σ1.
      change (exec_prog (for_each l (λ e, call (MapGetAndRemove e.1);;
                                          call (MgrClose e.2))) σ1 = Some (σ', tt)).
      exact Hrun.
    + intros p. rewrite Hreg. simpl.
      destruct (decide (p ∈ l.*1)) as [Hin | Hnin].
      * by rewrite decide_True by by right.
      * destruct (decide (p = p0)) as [-> | Hne].
        -- rewrite lookup_delete_eq. by rewrite decide_True by left.
        -- rewrite lookup_delete_ne by done.
           rewrite decide_False; [done |].
           intros [? | ?]%elem_of_cons; done.
    + by rewrite Hdom.
    + rewrite Htrace. simpl. by rewrite <- !app_assoc.
    + intros e [-> | He]%elem_of_cons; [| by apply Hclosed].
      apply (Hkeep r0 (Close m0)); [| apply Hrel].
      simpl. apply lookup_insert_eq.
    + intros r m Hr Hm.
      destruct (decide (r = r0)) as [-> | Hne].
      * apply (Hkeep r0 (Close m0)); [| apply Hrel].
        simpl. apply lookup_insert_eq.
      * apply (Hkeep r m); [| done]. simpl. by rewrite lookup_insert_ne.
Qed.

(** C9: [Close] empties the registry and calls [Close] on every manager
    that was registered, right after taking it out of the registry, in
    whatever order [Range] visits the entries; each call has run to its end
    when the next begins, so that once [Close] returns every such manager
    is in a state [Close] leaves, which is what [released] stands for. *)
Theorem ClientClose_closes_all (released : M → Prop) (picks : list nat)
    (σ : st') :
  (∀ m, released (Close m)) →
  (∀ p r, managers (cl σ) !! p = Some r → is_Some (heap σ !! r)) →
  ∃ σ' visited,
    exec_prog (ClientClose picks) σ = Some (σ', tt)
    ∧ visited ≡ₚ map_to_list (managers (cl σ))
    ∧ managers (cl σ') = ∅
    ∧ trace σ' = trace σ ++ flat_map (λ e, [EvGetAndRemove e.1; EvClose e.2])
                                     visited
    ∧ (∀ p r, managers (cl σ) !! p = Some r →
         EvClose r ∈ drop (length (trace σ)) (trace σ')
         ∧ ∃ m', heap σ' !! r = Some m' ∧ released m').
Proof.
  intros Hrel Halloc.
  set (visited := arrange picks (map_to_list (managers (cl σ)))).
  assert (visited ≡ₚ map_to_list (managers (cl σ))) as Hperm
    by apply arrange_perm.
  assert (∀ p r, (p, r) ∈ visited ↔ managers (cl σ) !! p = Some r) as Hvisited.
  { intros p r. by rewrite Hperm, elem_of_map_to_list. }
  destruct (close_loop released visited Hrel σ)
    as (σ' & Hrun & Hreg & _ & Htrace & Hclosed & _).
  { intros [p r] He%Hvisited. by apply (Halloc p). }
  exists σ', visited. split_and!.
  - exact Hrun.
  - exact Hperm.
  - apply map_empty. intros p. rewrite Hreg. case_decide as Hin; [done |].
    apply not_elem_of_dom. intros Hp. apply Hin.
    apply elem_of_dom in Hp as [r Hp].
    apply list_elem_of_fmap. exists (p, r). split; [done |].
    by apply Hvisited.
  - exact Htrace.
  - intros p r Hp. split.
    + rewrite Htrace, drop_app_length.
      apply list_elem_of_In, in_flat_map. exists (p, r). split.
      * apply list_elem_of_In. by apply Hvisited.
      * simpl. auto.
    + apply (Hclosed (p, r)). by apply Hvisited.
Qed.

End ClientFacts.

(** * Properties of the manager of the specification *)
Section ManagerFacts.
Import SpecManager.

Lemma Num_targets (m : manager) : Num m = Z.of_nat (length (targets m)).
Proof.
  unfold Num, targets, solo_targets. rewrite length_app. do 2 f_equal.
  induction (m_solos m) as [| d l IH]; simpl; [done |].
  rewrite length_app. f_equal. exact IH.
Qed.

Lemma Num_vchannels (m : manager) : Num m = Z.of_nat (length (vchannels m)).
Proof. unfold vchannels. by rewrite length_fmap, Num_targets. Qed.

Lemma Add_duplicate (m : manager) (v : string) (pos : option Z) (sp : SubPos) :
  v ∈ vchannels m →
  Add m v pos sp = (m, (None, Some DuplicateRegistration)).
Proof. intros Hin. unfold Add. by rewrite decide_True. Qed.

Lemma Add_error (m m' : manager) (v : string) (pos : option Z) (sp : SubPos)
    (ch : option nat) (err : DispatchError) :
  Add m v pos sp = (m', (ch, Some err)) → m' = m ∧ ch = None.
Proof.
  unfold Add. intros Hadd.
  repeat (case_match; simplify_eq); done.
Qed.

Lemma Add_ok (m m' : manager) (v : string) (pos : option Z) (sp : SubPos)
    (ch : option nat) :
  Add m v pos sp = (m', (ch, None)) →
  (v ∉ vchannels m)
  ∧ ch = Some (length (m_queues m))
  ∧ m_queues m' = m_queues m ++ [QOpen]
  ∧ vchannels m' ≡ₚ v :: vchannels m.
Proof.
  unfold Add. intros Hadd.
  repeat (case_match; simplify_eq); split_and!; try done;
    unfold vchannels, targets, main_targets, solo_targets; simpl;
    repeat match goal with H : m_main m = _ |- _ => rewrite H end; simpl.
  - rewrite !fmap_app. simpl. rewrite <- app_assoc. simpl.
    by rewrite <- Permutation_middle.
  - rewrite !fmap_app, concat_app, !fmap_app. simpl.
    rewrite app_assoc. by rewrite <- Permutation_cons_append.
  - done.
Qed.

Lemma detach_targets (v : string) (d : Dispatcher) :
  d_targets (detach v d) = filter (λ t, tg_vchannel t ≠ v) (d_targets d).
Proof. done. Qed.

Lemma has_targets_false (d : Dispatcher) :
  has_targets d = false ↔ d_targets d = [].
Proof. unfold has_targets. by destruct (d_targets d). Qed.

Lemma detach_solo_targets (v : string) (l : list Dispatcher) :
  concat (d_targets <$> omap (detach_solo v) l)
  = filter (λ t, tg_vchannel t ≠ v) (concat (d_targets <$> l)).
Proof.
  induction l as [| d l IH]; [done |].
  rewrite fmap_cons, concat_cons, filter_app, <- IH.
  change (omap (detach_solo v) (d :: l))
    with (match detach_solo v d with
          | Some d' => d' :: omap (detach_solo v) l
          | None => omap (detach_solo v) l
          end).
  unfold detach_solo at 1.
  destruct (has_targets d && negb (has_targets (detach v d))) eqn:Hgone.
  - apply andb_true_iff in Hgone as [_ Hgone].
    apply negb_true_iff, has_targets_false in Hgone.
    rewrite detach_targets in Hgone. by rewrite Hgone.
  - by rewrite fmap_cons, concat_cons.
Qed.

Lemma detach_targets_concat (v : string) (l : list Dispatcher) :
  concat (d_targets <$> (detach v <$> l))
  = filter (λ t, tg_vchannel t ≠ v) (concat (d_targets <$> l)).
Proof.
  induction l as [| d l IH]; [done |].
  by rewrite !fmap_cons, !concat_cons, filter_app, <- IH.
Qed.

Lemma detach_main_targets (v : string) (mn : option Dispatcher) :
  from_option d_targets [] (detach v <$> mn)
  = filter (λ t, tg_vchannel t ≠ v) (from_option d_targets [] mn).
Proof. by destruct mn. Qed.

Lemma filter_vchannels (v : string) (l : list Target) :
  tg_vchannel <$> filter (λ t, tg_vchannel t ≠ v) l
  = filter (λ x, x ≠ v) (tg_vchannel <$> l).
Proof.
  induction l as [| t l IH]; [done |].
  rewrite fmap_cons, !filter_cons.
  case_decide; [rewrite fmap_cons |]; by rewrite IH.
Qed.

Lemma Remove_vchannels (m : manager) (v : string) :
  vchannels (Remove m v) = filter (λ x, x ≠ v) (vchannels m).
Proof.
  unfold vchannels, targets, main_targets, solo_targets, Remove. simpl.
  by rewrite detach_main_targets, detach_solo_targets, <- filter_app,
    filter_vchannels.
Qed.

Lemma Evict_vchannels (m : manager) (v : string) :
  vchannels (Evict m v) = filter (λ x, x ≠ v) (vchannels m).
Proof.
  unfold vchannels, targets, main_targets, solo_targets, Evict. simpl.
  by rewrite detach_main_targets, detach_targets_concat, <- filter_app,
    filter_vchannels.
Qed.

Lemma Advance_vchannels (m : manager) (which : option nat) (p : Z) :
  vchannels (Advance m which p) = vchannels m.
Proof.
  unfold vchannels, targets, main_targets, solo_targets, Advance.
  destruct which as [i |]; simpl.
  - do 3 f_equal.
    rewrite (list_fmap_alter d_targets _ id); [apply list_alter_id; done |].
    by apply Forall_true.
  - by destruct (m_main m).
Qed.

Lemma concat_filter_split {A B : Type} (f : A → list B) (P : A → Prop)
    `{∀ x, Decision (P x)} (l : list A) :
  concat (f <$> filter P l) ++ concat (f <$> filter (λ x, ¬ P x) l)
  ≡ₚ concat (f <$> l).
Proof.
  induction l as [| a l IH]; [done |].
  rewrite !filter_cons, fmap_cons, concat_cons. case_decide.
  - rewrite decide_False by tauto.
    by rewrite fmap_cons, concat_cons, <- app_assoc, IH.
  - rewrite decide_True by done. rewrite fmap_cons, concat_cons.
    rewrite <- IH, !app_assoc. f_equiv. apply Permutation_app_comm.
Qed.

Lemma Merge_vchannels (m : manager) : vchannels (Merge m) ≡ₚ vchannels m.
Proof.
  unfold vchannels, targets, main_targets, solo_targets, Merge.
  destruct (m_main m) as [d |] eqn:Hmain; simpl; [| by rewrite Hmain].
  rewrite <- app_assoc. do 2 f_equiv. apply concat_filter_split.
Qed.

Lemma Close_vchannels (m : manager) : vchannels (Close m) = [].
Proof. done. Qed.

Lemma NewDispatcherManager_vchannels (p r : string) (n : Z) (f : Factory) :
  vchannels (NewDispatcherManager p r n f) = [].
Proof. done. Qed.

Lemma filter_unknown (v : string) (l : list Target) :
  v ∉ tg_vchannel <$> l → filter (λ t, tg_vchannel t ≠ v) l = l.
Proof.
  induction l as [| t l IH]; [done |].
  rewrite fmap_cons, not_elem_of_cons. intros [Hne Hl].
  rewrite filter_cons, decide_True by done. by rewrite IH.
Qed.

Lemma detach_unknown (v : string) (d : Dispatcher) :
  v ∉ tg_vchannel <$> d_targets d → detach v d = d.
Proof.
  destruct d as [c ts]. unfold detach. simpl. intros Hd.
  by rewrite filter_unknown.
Qed.

Lemma detach_solo_unknown (v : string) (l : list Dispatcher) :
  v ∉ tg_vchannel <$> concat (d_targets <$> l) →
  omap (detach_solo v) l = l.
Proof.
  induction l as [| d l IH]; [done |].
  rewrite fmap_cons, concat_cons, fmap_app, not_elem_of_app. intros [Hd Hl].
  change (omap (detach_solo v) (d :: l))
    with (match detach_solo v d with
          | Some d' => d' :: omap (detach_solo v) l
          | None => omap (detach_solo v) l
          end).
  assert (detach_solo v d = Some d) as ->.
  { unfold detach_solo. rewrite detach_unknown by done.
    by rewrite andb_negb_r. }
  by rewrite IH.
Qed.

Lemma close_queues_of_unknown (v : string) (q : queue) (ts : list Target)
    (qs : list queue) :
  v ∉ tg_vchannel <$> ts → close_queues_of v q ts qs = qs.
Proof.
  unfold close_queues_of. induction ts as [| t ts IH]; [done |].
  rewrite fmap_cons, not_elem_of_cons. intros [Hne Hl].
  rewrite foldr_cons, decide_False by done. by apply IH.
Qed.

(** A subscription the manager does not hold: [Remove] changes nothing. *)
Lemma Remove_unknown (m : manager) (v : string) :
  v ∉ vchannels m → Remove m v = m.
Proof.
  intros Hall. unfold Remove. rewrite close_queues_of_unknown by done.
  unfold vchannels, targets, main_targets, solo_targets in Hall.
  rewrite fmap_app, not_elem_of_app in Hall. destruct Hall as [Hmain Hsolo].
  rewrite detach_solo_unknown by done.
  replace (detach v <$> m_main m) with (m_main m); [by destruct m |].
  destruct (m_main m) as [d |]; simpl in *; [| done].
  by rewrite detach_unknown.
Qed.

Lemma Close_released (m : manager) : released (Close m).
Proof.
  unfold released, Close. simpl. split_and!; try done.
  intros Hin. apply list_elem_of_fmap in Hin as (q & Hq & _). by destruct q.
Qed.

End ManagerFacts.

(** * Properties of the client over the manager of the specification *)
Section SystemFacts.
Import SpecManager.

Variable ToPhysicalChannel : string → string.

Abbreviation sys := (state Factory manager).
Abbreviation Register' := (Register (Pos := Z) (Chan := nat)
                             (Err := DispatchError) ToPhysicalChannel).
Abbreviation Deregister' := (Deregister (Pos := Z) (Chan := nat)
                               (Err := DispatchError) ToPhysicalChannel).

Lemma vchannels_nonempty (m : manager) (v : string) :
  v ∈ vchannels m → Num m ≠ 0.
Proof.
  rewrite Num_vchannels. destruct (vchannels m); [| done].
  intros Hin. by apply elem_of_nil in Hin.
Qed.

Lemma Num_zero_vchannels (m : manager) : Num m = 0 → vchannels m = [].
Proof. rewrite Num_vchannels. by destruct (vchannels m). Qed.

(** C3: [Register] of a subscription that the topic's manager already
    holds returns a nil channel and [DuplicateRegistration]; the registry
    and the heap are as before, so the manager, the target of the first
    registration and its output queue are exactly as they were. *)
Theorem Register_duplicate (σ : sys) (vchannel : string) (pos : option Z)
    (subPos : SubPos) (r : mgr_ref) (m : manager) :
  managers (cl σ) !! ToPhysicalChannel vchannel = Some r →
  heap σ !! r = Some m →
  vchannel ∈ vchannels m →
  ∃ σ',
    sys_run (Register' vchannel pos subPos) σ
      = Some (σ', (None, Some DuplicateRegistration))
    ∧ cl σ' = cl σ
    ∧ heap σ' = heap σ
    ∧ heap σ' !! r = Some m
    ∧ trace σ' = trace σ ++ [EvAdd r vchannel].
Proof.
  intros Hget Hheap Hin.
  assert (manager_for NewDispatcherManager σ (ToPhysicalChannel vchannel)
          = (r, Some m)) as Hfor.
  { unfold manager_for. by rewrite Hget, Hheap. }
  unfold sys_run.
  rewrite (run_Register ToPhysicalChannel NewDispatcherManager _ _ _ _ _ _ Hfor).
  unfold before_add. rewrite Hget. simpl.
  rewrite (Add_duplicate m vchannel pos subPos Hin). simpl.
  rewrite decide_False by by apply (vchannels_nonempty m vchannel).
  eexists. split; [done |]. simpl.
  rewrite insert_id by done. done.
Qed.

Lemma list_to_set_filter_ne (v : string) (l : list string) :
  list_to_set (filter (λ x, x ≠ v) l) =@{gset string} list_to_set l ∖ {[v]}.
Proof.
  apply set_eq. intros x.
  rewrite elem_of_difference, !elem_of_list_to_set, list_elem_of_filter,
    elem_of_singleton.
  tauto.
Qed.

Lemma list_to_set_perm (l1 l2 : list string) :
  l1 ≡ₚ l2 → list_to_set l1 =@{gset string} list_to_set l2.
Proof.
  intros Hperm. apply set_eq. intros x.
  by rewrite !elem_of_list_to_set, Hperm.
Qed.

Lemma tracks_size (pchannel : string) (σ : sys) (live : gset string)
    (r : mgr_ref) :
  tracks pchannel σ live →
  managers (cl σ) !! pchannel = Some r →
  ∃ m, heap σ !! r = Some m ∧ Num m = Z.of_nat (size live).
Proof.
  unfold tracks. intros Htracks Hget. rewrite Hget in Htracks.
  destruct Htracks as (m & Hheap & Hnodup & <-).
  exists m. split; [done |].
  by rewrite Num_vchannels, size_list_to_set.
Qed.

Lemma tracks_Register (pchannel : string) (σ : sys) (live : gset string)
    (v : string) (pos : option Z) (subPos : SubPos) :
  ToPhysicalChannel v = pchannel →
  tracks pchannel σ live →
  ∃ σ' res,
    sys_run (Register' v pos subPos) σ = Some (σ', res)
    ∧ tracks pchannel σ'
        (match res.2 with None => {[v]} ∪ live | Some _ => live end).
Proof.
  intros Htopic Htracks.
  assert (∃ r m0, manager_for NewDispatcherManager σ pchannel = (r, Some m0)
                  ∧ NoDup (vchannels m0)
                  ∧ list_to_set (vchannels m0) = live) as (r & m0 & Hfor & Hnodup & Hlive).
  { unfold tracks, manager_for in *.
    destruct (managers (cl σ) !! pchannel) as [r |].
    - destruct Htracks as (m & Hheap & Hnodup & Hlive).
      exists r, m. by rewrite Hheap.
    - eexists _, _. split; [done |]. split; [apply NoDup_nil_2 | done]. }
  destruct (before_add_heap NewDispatcherManager _ _ _ _ Hfor) as [Hheap1 Hget1].
  unfold sys_run. subst pchannel.
  rewrite (run_Register ToPhysicalChannel NewDispatcherManager _ _ _ _ _ _ Hfor).
  set (σ1 := before_add NewDispatcherManager σ (ToPhysicalChannel v)) in *.
  cbv zeta. simpl.
  destruct (Add m0 v pos subPos) as [m1 [ch [err |]]] eqn:Hadd; simpl.
  - apply Add_error in Hadd as [-> ->].
    case_decide as Hnum; eexists _, _; (split; [done |]); unfold tracks; simpl.
    + rewrite lookup_delete_eq. rewrite <- Hlive.
      by rewrite (Num_zero_vchannels _ Hnum).
    + rewrite Hget1, lookup_insert_eq. by exists m0.
  - apply Add_ok in Hadd as (Hnew & _ & _ & Hperm).
    eexists _, _. split; [done |]. unfold tracks. simpl.
    rewrite Hget1, lookup_insert_eq. exists m1. split_and!; [done | |].
    + rewrite Hperm. by apply NoDup_cons.
    + rewrite (list_to_set_perm _ _ Hperm), list_to_set_cons. by rewrite Hlive.
Qed.

Lemma tracks_Deregister (pchannel : string) (σ : sys) (live : gset string)
    (v : string) :
  ToPhysicalChannel v = pchannel →
  tracks pchannel σ live →
  ∃ σ',
    sys_run (Deregister' v) σ = Some (σ', tt)
    ∧ tracks pchannel σ' (live ∖ {[v]}).
Proof.
  intros Htopic Htracks. unfold sys_run. subst pchannel.
  rewrite (run_Deregister ToPhysicalChannel NewDispatcherManager). cbv zeta.
  unfold tracks in *.
  destruct (managers (cl σ) !! ToPhysicalChannel v) as [r |] eqn:Hget.
  - destruct Htracks as (m & Hheap & Hnodup & Hlive). rewrite Hheap. simpl.
    assert (list_to_set (vchannels (Remove m v)) = live ∖ {[v]}) as Hlive'.
    { by rewrite Remove_vchannels, list_to_set_filter_ne, Hlive. }
    case_decide as Hnum; eexists; (split; [done |]); simpl.
    + rewrite lookup_delete_eq. rewrite <- Hlive'.
      by rewrite (Num_zero_vchannels _ Hnum).
    + rewrite Hget, lookup_insert_eq. exists (Remove m v).
      split_and!; [done | | done].
      rewrite Remove_vchannels. by apply NoDup_filter.
  - exists σ. split; [done |]. rewrite Hget. subst live.
    apply empty_difference_L.
Qed.

Lemma tracks_on_manager (pchannel : string) (σ : sys) (live live' : gset string)
    (f : manager → manager) :
  tracks pchannel σ live →
  (∀ m, NoDup (vchannels m) → NoDup (vchannels (f m))) →
  (∀ m, list_to_set (vchannels m) = live →
        list_to_set (vchannels (f m)) = live') →
  (live = ∅ → live' = ∅) →
  tracks pchannel (on_manager pchannel f σ) live'.
Proof.
  unfold tracks, on_manager. intros Htracks Hnodup Hlive Hempty.
  destruct (managers (cl σ) !! pchannel) as [r |] eqn:Hget; simpl.
  - rewrite Hget. destruct Htracks as (m & Hheap & Hnd & Hl).
    exists (f m). rewrite lookup_alter_eq, Hheap. split_and!; auto.
  - rewrite Hget. auto.
Qed.

Lemma tracks_step (pchannel : string) (a : action) (σ : sys)
    (live : gset string) :
  on_topic ToPhysicalChannel pchannel a →
  tracks pchannel σ live →
  ∃ σ' live',
    do_action ToPhysicalChannel pchannel a (σ, live) = Some (σ', live')
    ∧ tracks pchannel σ' live'.
Proof.
  intros Htopic Htracks.
  destruct a as [v pos sp | v | v | which p |]; cbn [do_action fst snd].
  - destruct (tracks_Register pchannel σ live v pos sp) as (σ' & res & -> & Hres);
      [by apply Htopic | done |].
    destruct res as [ch [err |]]; eauto.
  - destruct (tracks_Deregister pchannel σ live v) as (σ' & -> & Hres);
      [by apply Htopic | done |].
    eauto.
  - eexists _, _. split; [done |].
    apply (tracks_on_manager _ _ live); [done | | |].
    + intros m Hnd. rewrite Evict_vchannels. by apply NoDup_filter.
    + intros m Hl. by rewrite Evict_vchannels, list_to_set_filter_ne, Hl.
    + intros ->. apply empty_difference_L.
  - eexists _, _. split; [done |].
    apply (tracks_on_manager _ _ live); [done | | | done].
    + intros m Hnd. by rewrite Advance_vchannels.
    + intros m Hl. by rewrite Advance_vchannels.
  - eexists _, _. split; [done |].
    apply (tracks_on_manager _ _ live); [done | | | done].
    + intros m Hnd. by rewrite Merge_vchannels.
    + intros m Hl. by rewrite (list_to_set_perm _ _ (Merge_vchannels m)).
Qed.

Lemma tracks_steps (pchannel : string) (l : list action) (σ : sys)
    (live : gset string) :
  Forall (on_topic ToPhysicalChannel pchannel) l →
  tracks pchannel σ live →
  ∃ σ' live',
    do_actions ToPhysicalChannel pchannel l (σ, live) = Some (σ', live')
    ∧ tracks pchannel σ' live'.
Proof.
  intros Hall. revert σ live.
  induction Hall as [| a l Ha Hl IH]; intros σ live Htracks; simpl.
  - eauto.
  - destruct (tracks_step pchannel a σ live Ha Htracks)
      as (σ1 & live1 & -> & Htracks1).
    by apply IH.
Qed.

(** C7: after any sequence of registrations, deregistrations, evictions
    and steps of the manager on the subscriptions of one topic, starting
    from a new client, the sequence runs to its end and, whenever the
    topic has a manager, [Num] of that manager is the number of live
    subscriptions, which is the number of targets on main plus the
    numbers of targets on the solos; with no manager none is live. *)
Theorem Num_counts_live (f : Factory) (role : string) (nodeID : Z)
    (pchannel : string) (l : list action) :
  Forall (on_topic ToPhysicalChannel pchannel) l →
  ∃ σ live,
    do_actions ToPhysicalChannel pchannel l (NewClient f role nodeID, ∅)
      = Some (σ, live)
    ∧ (∀ r, managers (cl σ) !! pchannel = Some r →
         ∃ m, heap σ !! r = Some m
              ∧ Num m = Z.of_nat (size live)
              ∧ Z.of_nat (size live)
                = Z.of_nat (length (main_targets m)
                            + sum_list (length ∘ d_targets <$> m_solos m))%nat)
    ∧ (managers (cl σ) !! pchannel = None → live = ∅).
Proof.
  intros Hall.
  destruct (tracks_steps pchannel l (NewClient f role nodeID) ∅ Hall)
    as (σ & live & Hrun & Htracks); [done |].
  exists σ, live. split_and!; [done | |].
  - intros r Hget.
    destruct (tracks_size _ _ _ _ Htracks Hget) as (m & Hheap & Hnum).
    exists m. split_and!; [done | done |]. by rewrite <- Hnum.
  - intros Hget. unfold tracks in Htracks. by rewrite Hget in Htracks.
Qed.

End SystemFacts.

(** * The concrete instance: races, and instances of the theorems *)
Section Concrete.
Import SpecManager Example.

(** C5: two goroutines register on a topic for the first time and both
    look the topic up before either has inserted.  Both get a channel,
    but two managers have been created and two control loops started for
    the one topic; the registry holds the second manager only, and the
    first, with the target of the first goroutine, is in no registry. *)
Theorem Register_race_two_managers :
  ∃ σ ts,
    run_schedule NewDispatcherManager both_miss (fresh_client, first_timers)
      = Some (σ, ts)
    ∧ returned <$> ts = [Some (Some 0%nat, None); Some (Some 0%nat, None)]
    ∧ created "p0" (trace σ) = [0%nat; 1%nat]
    ∧ trace σ = [EvNew 0 "p0"; EvInsert "p0" 0; EvRun 0; EvAdd 0 "p0_v1";
                 EvNew 1 "p0"; EvInsert "p0" 1; EvRun 1; EvAdd 1 "p0_v2"]
    ∧ managers (cl σ) !! "p0" = Some 1%nat
    ∧ vchannels <$> heap σ !! 0%nat = Some ["p0_v1"]
    ∧ vchannels <$> heap σ !! 1%nat = Some ["p0_v2"]
    ∧ m_closed <$> heap σ !! 0%nat = Some false.
Proof.
  exists (final_state (outcome both_miss first_timers)),
         (final_pool (outcome both_miss first_timers)).
  split_and!; by vm_compute.
Qed.

(** C6: the first goroutine creates the manager of the topic and its
    [Add] fails; it reads [Num] as 0; the [Add] of the second goroutine
    then succeeds on that manager and returns a channel; the first
    goroutine goes on to close the manager, which by now holds the
    target of the second, and to take it out of the registry. *)
Theorem Register_race_evicts_live_manager :
  ∃ σ1 ts1 σ2 ts2 m1 m2,
    run_schedule NewDispatcherManager until_close
      (fresh_client, failing_and_succeeding) = Some (σ1, ts1)
    ∧ managers (cl σ1) !! "p0" = Some 0%nat
    ∧ heap σ1 !! 0%nat = Some m1
    ∧ vchannels m1 = ["p0_v2"]
    ∧ Num m1 = 1
    ∧ m_queues m1 = [QOpen]
    ∧ returned <$> ts1 = [None; Some (Some 0%nat, None)]
    ∧ run_schedule NewDispatcherManager add_between_num_and_close
        (fresh_client, failing_and_succeeding) = Some (σ2, ts2)
    ∧ returned <$> ts2 = [Some (None, Some PositionInvalid);
                          Some (Some 0%nat, None)]
    ∧ managers (cl σ2) !! "p0" = None
    ∧ heap σ2 !! 0%nat = Some m2
    ∧ vchannels m2 = []
    ∧ m_queues m2 = [QClosed]
    ∧ m_closed m2 = true.
Proof.
  set (o1 := outcome until_close failing_and_succeeding).
  set (o2 := outcome add_between_num_and_close failing_and_succeeding).
  exists (final_state o1), (final_pool o1), (final_state o2), (final_pool o2),
         (manager_at (final_state o1) 0), (manager_at (final_state o2) 0).
  split_and!; by vm_compute.
Qed.

(** C4, the claim as worded, fails: after the one subscription of p0 was
    evicted as a slow consumer, p0_v2 is not registered under the manager
    of p0, and [Remove] leaves that manager as it is; yet [Deregister] of
    p0_v2 closes the manager and takes it out of the registry. *)
Lemma Deregister_unknown_evicts_empty_manager :
  do_actions ToPhysicalChannel "p0"
    [ARegister "p0_v1" None SubscriptionPositionEarliest; AEvict "p0_v1"]
    (fresh_client, ∅) = Some (one_evicted, ∅)
  ∧ ∃ m σ',
      managers (cl one_evicted) !! "p0" = Some 0%nat
      ∧ heap one_evicted !! 0%nat = Some m
      ∧ ("p0_v2" ∉ vchannels m)
      ∧ Remove m "p0_v2" = m
      ∧ sys_run (deregister "p0_v2") one_evicted = Some (σ', tt)
      ∧ managers (cl σ') !! "p0" = None
      ∧ managers (cl σ') ≠ managers (cl one_evicted)
      ∧ heap σ' !! 0%nat = Some (Close m)
      ∧ heap σ' !! 0%nat ≠ heap one_evicted !! 0%nat.
Proof.
  split; [by vm_compute |].
  exists (manager_at one_evicted 0), (after (deregister "p0_v2") one_evicted).
  split_and!; try by vm_compute.
  vm_compute. intros Hin. by apply elem_of_nil in Hin.
Qed.

(** Instances of the theorems above on the concrete client. *)

Lemma Deregister_last_then_Register_new_witness :
  managers (cl one_registered) !! ToPhysicalChannel "p0_v1" = Some 0%nat
  ∧ heap one_registered !! 0%nat = Some manager_one
  ∧ Num (Remove manager_one "p0_v1") = 0
  ∧ ToPhysicalChannel "p0_v3" = ToPhysicalChannel "p0_v1"
  ∧ ∃ σ1 σ2 res r',
      sys_run (deregister "p0_v1") one_registered = Some (σ1, tt)
      ∧ managers (cl σ1) = delete "p0" (managers (cl one_registered))
      ∧ sys_run (register "p0_v3" None SubscriptionPositionLatest) σ1
        = Some (σ2, res)
      ∧ r' ≠ 0%nat
      ∧ heap one_registered !! r' = None
      ∧ heap σ2 !! 0%nat = Some (Close (Remove manager_one "p0_v1")).
Proof.
  assert (managers (cl one_registered) !! ToPhysicalChannel "p0_v1"
          = Some 0%nat) as H1 by reflexivity.
  assert (heap one_registered !! 0%nat = Some manager_one) as H2 by reflexivity.
  assert (Num (Remove manager_one "p0_v1") = 0) as H3 by reflexivity.
  assert (ToPhysicalChannel "p0_v3" = ToPhysicalChannel "p0_v1") as H4
    by reflexivity.
  split_and!; [exact H1 | exact H2 | exact H3 | exact H4 |].
  destruct (Deregister_last_then_Register_new (DispatcherManager0 := manager_DispatcherManager)
              ToPhysicalChannel
              NewDispatcherManager one_registered "p0_v1" "p0_v3" None
              SubscriptionPositionLatest 0%nat manager_one H1 H2 H3 H4)
    as (σ1 & σ2 & res & r' & Hd & Hm & _ & _ & Hr & Hne & Hnew & _ & _ & Hold & _).
  exists σ1, σ2, res, r'. split_and!; assumption.
Defined.

Lemma Register_failed_empty_evicts_witness :
  manager_for NewDispatcherManager fresh_client (ToPhysicalChannel "p0_v1")
    = (0%nat, Some manager_new)
  ∧ Add manager_new "p0_v1" (Some 2) SubscriptionPositionUnknown
    = (manager_new, (None, Some PositionInvalid))
  ∧ Num manager_new = 0
  ∧ ∃ σ',
      sys_run (register "p0_v1" (Some 2) SubscriptionPositionUnknown)
              fresh_client = Some (σ', (None, Some PositionInvalid))
      ∧ managers (cl σ') !! "p0" = None
      ∧ heap σ' !! 0%nat = Some (Close manager_new).
Proof.
  assert (manager_for NewDispatcherManager fresh_client
            (ToPhysicalChannel "p0_v1") = (0%nat, Some manager_new)) as H1
    by reflexivity.
  assert (Add manager_new "p0_v1" (Some 2) SubscriptionPositionUnknown
          = (manager_new, (None, Some PositionInvalid))) as H2 by reflexivity.
  assert (Num manager_new = 0) as H3 by reflexivity.
  split_and!; [exact H1 | exact H2 | exact H3 |].
  destruct (Register_failed_empty_evicts (DispatcherManager0 := manager_DispatcherManager)
              ToPhysicalChannel
              NewDispatcherManager fresh_client "p0_v1" (Some 2)
              SubscriptionPositionUnknown 0%nat manager_new manager_new
              None PositionInvalid H1 H2 H3)
    as (σ' & pre & Hrun & _ & Hgone & Hclosed & _).
  exists σ'. split_and!; assumption.
Defined.

Lemma Register_duplicate_witness :
  managers (cl one_registered) !! ToPhysicalChannel "p0_v1" = Some 0%nat
  ∧ heap one_registered !! 0%nat = Some manager_one
  ∧ "p0_v1" ∈ vchannels manager_one
  ∧ ∃ σ',
      sys_run (register "p0_v1" (Some 50) SubscriptionPositionUnknown)
              one_registered = Some (σ', (None, Some DuplicateRegistration))
      ∧ cl σ' = cl one_registered
      ∧ heap σ' = heap one_registered.
Proof.
  assert (managers (cl one_registered) !! ToPhysicalChannel "p0_v1"
          = Some 0%nat) as H1 by reflexivity.
  assert (heap one_registered !! 0%nat = Some manager_one) as H2 by reflexivity.
  assert ("p0_v1" ∈ vchannels manager_one) as H3 by (vm_compute; left).
  split_and!; [exact H1 | exact H2 | exact H3 |].
  destruct (Register_duplicate ToPhysicalChannel one_registered "p0_v1"
              (Some 50) SubscriptionPositionUnknown 0%nat manager_one H1 H2 H3)
    as (σ' & Hrun & Hcl & Hheap & _).
  exists σ'. split_and!; assumption.
Defined.

Lemma Deregister_unknown_noop_witness :
  managers (cl fresh_client) !! ToPhysicalChannel "p0_v1" = None
  ∧ sys_run (deregister "p0_v1") fresh_client = Some (fresh_client, tt)
  ∧ managers (cl one_registered) !! ToPhysicalChannel "p0_v2" = Some 0%nat
  ∧ heap one_registered !! 0%nat = Some manager_one
  ∧ Remove manager_one "p0_v2" = manager_one
  ∧ Num manager_one ≠ 0
  ∧ (∃ σ',
       sys_run (deregister "p0_v2") one_registered = Some (σ', tt)
       ∧ cl σ' = cl one_registered
       ∧ heap σ' = heap one_registered)
  ∧ managers (cl one_evicted) !! ToPhysicalChannel "p0_v2" = Some 0%nat
  ∧ heap one_evicted !! 0%nat = Some (manager_at one_evicted 0)
  ∧ Remove (manager_at one_evicted 0) "p0_v2" = manager_at one_evicted 0
  ∧ Num (manager_at one_evicted 0) = 0
  ∧ (∃ σ',
       sys_run (deregister "p0_v2") one_evicted = Some (σ', tt)
       ∧ managers (cl σ') = delete "p0" (managers (cl one_evicted))
       ∧ heap σ' = <[0%nat := Close (manager_at one_evicted 0)]> (heap one_evicted)).
Proof.
  assert (managers (cl fresh_client) !! ToPhysicalChannel "p0_v1" = None)
    as H0 by reflexivity.
  assert (managers (cl one_registered) !! ToPhysicalChannel "p0_v2"
          = Some 0%nat) as H1 by reflexivity.
  assert (heap one_registered !! 0%nat = Some manager_one) as H2 by reflexivity.
  assert (Remove manager_one "p0_v2" = manager_one) as H3 by reflexivity.
  assert (Num manager_one ≠ 0) as H4 by (vm_compute; discriminate).
  assert (managers (cl one_evicted) !! ToPhysicalChannel "p0_v2" = Some 0%nat)
    as H5 by reflexivity.
  assert (heap one_evicted !! 0%nat = Some (manager_at one_evicted 0)) as H6
    by reflexivity.
  assert (Remove (manager_at one_evicted 0) "p0_v2" = manager_at one_evicted 0)
    as H7 by reflexivity.
  assert (Num (manager_at one_evicted 0) = 0) as H8 by reflexivity.
  split_and!; [exact H0 | | exact H1 | exact H2 | exact H3 | exact H4 |
               | exact H5 | exact H6 | exact H7 | exact H8 |].
  - exact (proj1 (Deregister_unknown_noop (DispatcherManager0 := manager_DispatcherManager)
                ToPhysicalChannel
                    NewDispatcherManager fresh_client "p0_v1") H0).
  - exact (proj1 (proj2 (Deregister_unknown_noop (DispatcherManager0 := manager_DispatcherManager)
                ToPhysicalChannel
                    NewDispatcherManager one_registered "p0_v2"))
                 0%nat manager_one H1 H2 H3 H4).
  - destruct (proj2 (proj2 (Deregister_unknown_noop
                (DispatcherManager0 := manager_DispatcherManager)
                ToPhysicalChannel NewDispatcherManager one_evicted "p0_v2"))
                0%nat (manager_at one_evicted 0) H5 H6 H7 H8)
      as (σ' & Hrun & Hreg & Hheap & _).
    exists σ'. split_and!; assumption.
Defined.

Lemma Num_counts_live_witness :
  Forall (on_topic ToPhysicalChannel "p0") scenario
  ∧ ∃ σ live,
      do_actions ToPhysicalChannel "p0" scenario (fresh_client, ∅)
        = Some (σ, live)
      ∧ (∀ r, managers (cl σ) !! "p0" = Some r →
           ∃ m, heap σ !! r = Some m
                ∧ Num m = Z.of_nat (size live)
                ∧ Z.of_nat (size live)
                  = Z.of_nat (length (main_targets m)
                              + sum_list (length ∘ d_targets <$> m_solos m))%nat)
      ∧ (managers (cl σ) !! "p0" = None → live = ∅).
Proof.
  assert (Forall (on_topic ToPhysicalChannel "p0") scenario) as H1.
  { unfold scenario.
    repeat (apply Forall_cons_2;
            [intros v Hv; simpl in Hv; try discriminate Hv;
             injection Hv as <-; reflexivity |]).
    apply Forall_nil_2. }
  split; [exact H1 |].
  exact (Num_counts_live ToPhysicalChannel transport "querynode" 1 "p0"
           scenario H1).
Defined.

Lemma Register_starts_loop_once_witness :
  manager_for NewDispatcherManager fresh_client (ToPhysicalChannel "p0_v1")
    = (0%nat, Some manager_new)
  ∧ manager_for NewDispatcherManager one_registered (ToPhysicalChannel "p0_v2")
    = (0%nat, Some manager_one)
  ∧ (∃ σ' res rest,
       sys_run (register "p0_v1" None SubscriptionPositionEarliest) fresh_client
         = Some (σ', res)
       ∧ trace σ' = trace fresh_client
                      ++ [EvNew 0 "p0"; EvInsert "p0" 0; EvRun 0;
                          EvAdd 0 "p0_v1"] ++ rest)
  ∧ (∃ σ' res rest,
       sys_run (register "p0_v2" None SubscriptionPositionEarliest) one_registered
         = Some (σ', res)
       ∧ trace σ' = trace one_registered ++ [EvAdd 0 "p0_v2"] ++ rest).
Proof.
  assert (manager_for NewDispatcherManager fresh_client
            (ToPhysicalChannel "p0_v1") = (0%nat, Some manager_new)) as H1
    by reflexivity.
  assert (manager_for NewDispatcherManager one_registered
            (ToPhysicalChannel "p0_v2") = (0%nat, Some manager_one)) as H2
    by reflexivity.
  split_and!; [exact H1 | exact H2 | |].
  - destruct (Register_starts_loop_once
                (DispatcherManager0 := manager_DispatcherManager)
                ToPhysicalChannel NewDispatcherManager fresh_client "p0_v1"
                None SubscriptionPositionEarliest 0%nat manager_new H1)
      as (σ' & res & rest & Hrun & _ & Hnew & _).
    exists σ', res, rest. split; [exact Hrun |].
    exact (proj2 (Hnew eq_refl)).
  - destruct (Register_starts_loop_once
                (DispatcherManager0 := manager_DispatcherManager)
                ToPhysicalChannel NewDispatcherManager one_registered "p0_v2"
                None SubscriptionPositionEarliest 0%nat manager_one H2)
      as (σ' & res & rest & Hrun & _ & _ & Hold).
    exists σ', res, rest. split; [exact Hrun |].
    exact (proj2 (Hold 0%nat eq_refl)).
Defined.

Lemma ClientClose_closes_all_witness :
  (∀ m, released (Close m))
  ∧ (∀ p r, managers (cl two_topics) !! p = Some r →
            is_Some (heap two_topics !! r))
  ∧ ∃ σ' visited,
      sys_run (ClientClose [1%nat]) two_topics = Some (σ', tt)
      ∧ visited ≡ₚ map_to_list (managers (cl two_topics))
      ∧ managers (cl σ') = ∅
      ∧ trace σ' = trace two_topics
                     ++ flat_map (λ e, [EvGetAndRemove e.1; EvClose e.2]) visited
      ∧ (∀ p r, managers (cl two_topics) !! p = Some r →
           EvClose r ∈ drop (length (trace two_topics)) (trace σ')
           ∧ ∃ m', heap σ' !! r = Some m' ∧ released m').
Proof.
  assert (∀ p r, managers (cl two_topics) !! p = Some r →
                 is_Some (heap two_topics !! r)) as H2.
  { intros p r Hp. apply elem_of_map_to_list in Hp.
    vm_compute in Hp.
    apply elem_of_cons in Hp as [[= -> ->] | Hp];
      [exists (manager_at two_topics 1); by vm_compute |].
    apply elem_of_cons in Hp as [[= -> ->] | Hp];
      [exists (manager_at two_topics 0); by vm_compute |].
    by apply elem_of_nil in Hp. }
  split_and!; [exact Close_released | exact H2 |].
  exact (ClientClose_closes_all
           (DispatcherManager0 := manager_DispatcherManager)
           NewDispatcherManager released [1%nat] two_topics Close_released H2).
Defined.

Lemma nonempty_manager_stays_witness :
  manager_for NewDispatcherManager one_registered (ToPhysicalChannel "p0_v1")
    = (0%nat, Some manager_one)
  ∧ Add manager_one "p0_v1" (Some 50) SubscriptionPositionUnknown
    = (manager_one, (None, Some DuplicateRegistration))
  ∧ Num manager_one ≠ 0
  ∧ managers (cl two_registered) !! ToPhysicalChannel "p0_v1" = Some 0%nat
  ∧ heap two_registered !! 0%nat = Some manager_two
  ∧ Num (Remove manager_two "p0_v1") ≠ 0
  ∧ (∃ σ',
       sys_run (register "p0_v1" (Some 50) SubscriptionPositionUnknown)
               one_registered = Some (σ', (None, Some DuplicateRegistration))
       ∧ managers (cl σ') = <["p0" := 0%nat]> (managers (cl one_registered))
       ∧ heap σ' !! 0%nat = Some manager_one)
  ∧ (∃ σ',
       sys_run (deregister "p0_v1") two_registered = Some (σ', tt)
       ∧ cl σ' = cl two_registered
       ∧ heap σ' = <[0%nat := Remove manager_two "p0_v1"]> (heap two_registered)).
Proof.
  assert (manager_for NewDispatcherManager one_registered
            (ToPhysicalChannel "p0_v1") = (0%nat, Some manager_one)) as H1
    by reflexivity.
  assert (Add manager_one "p0_v1" (Some 50) SubscriptionPositionUnknown
          = (manager_one, (None, Some DuplicateRegistration))) as H2
    by reflexivity.
  assert (Num manager_one ≠ 0) as H3 by (vm_compute; discriminate).
  assert (managers (cl two_registered) !! ToPhysicalChannel "p0_v1"
          = Some 0%nat) as H4 by reflexivity.
  assert (heap two_registered !! 0%nat = Some manager_two) as H5 by reflexivity.
  assert (Num (Remove manager_two "p0_v1") ≠ 0) as H6
    by (vm_compute; discriminate).
  split_and!; [exact H1 | exact H2 | exact H3 | exact H4 | exact H5 | exact H6 | |].
  - destruct (proj1 (nonempty_manager_stays
                       (DispatcherManager0 := manager_DispatcherManager)
                       ToPhysicalChannel NewDispatcherManager one_registered
                       "p0_v1")
                    (Some 50) SubscriptionPositionUnknown 0%nat manager_one
                    manager_one None DuplicateRegistration H1 H2 H3)
      as (σ' & pre & Hrun & Hreg & _ & Hheap & _).
    exists σ'. split_and!; assumption.
  - destruct (proj2 (nonempty_manager_stays
                       (DispatcherManager0 := manager_DispatcherManager)
                       ToPhysicalChannel NewDispatcherManager two_registered
                       "p0_v1")
                    0%nat manager_two H4 H5 H6)
      as (σ' & Hrun & Hcl & Hheap & _).
    exists σ'. split_and!; assumption.
Defined.

End Concrete.

(** * More on the client, for any manager *)
Section ClientMore.
Context {Pos Chan Err Factory M : Type}.
Context `{!DispatcherManager Pos Chan Err M}.
Variable ToPhysicalChannel : string → string.
Variable NewDispatcherManager : string → string → Z → Factory → M.

Abbreviation world' := (state Factory M).
Abbreviation go := (run NewDispatcherManager).
Abbreviation the_manager := (manager_for NewDispatcherManager).
Abbreviation Reg := (Register (Pos := Pos) (Chan := Chan) (Err := Err)
                       ToPhysicalChannel).
Abbreviation Dereg := (Deregister (Pos := Pos) (Chan := Chan) (Err := Err)
                         ToPhysicalChannel).

Ltac fields :=
  simpl;
  rewrite ?lookup_insert_eq, ?lookup_delete_eq, ?delete_insert_eq,
          ?insert_insert_eq, <- ?app_assoc;
  simpl.

(** X1: [Register] returns the error of [Add], with a nil channel, or the
    channel of [Add] with no error; when [Add] succeeds the manager is
    registered under the topic in the state [Add] left, and the call has
    closed nothing and removed nothing. *)
Theorem Register_returns_Add (σ : world') (vchannel : string)
    (pos : option Pos) (subPos : SubPos) (r : mgr_ref) (m0 : M) :
  let pchannel := ToPhysicalChannel vchannel in
  let added := Add m0 vchannel pos subPos in
  the_manager σ pchannel = (r, Some m0) →
  ∃ σ' pre,
    go (Reg vchannel pos subPos) σ
      = Some (σ', match added.2.2 with
                  | Some err => (None, Some err)
                  | None => (added.2.1, None)
                  end)
    ∧ (added.2.2 = None →
         managers (cl σ') = <[pchannel := r]> (managers (cl σ))
         ∧ heap σ' = <[r := added.1]> (heap σ)
         ∧ trace σ' = trace σ ++ pre ++ [EvAdd r vchannel]
         ∧ (∀ e, e ∈ pre →
              e ∈ [EvNew r pchannel; EvInsert pchannel r; EvRun r])).
Proof.
  intros pchannel added Hfor.
  rewrite (run_Register ToPhysicalChannel NewDispatcherManager _ _ _ _ _ _ Hfor).
  fold pchannel. cbv zeta. subst added.
  destruct (Add m0 vchannel pos subPos) as [m1 [ch [err |]]]; simpl.
  - case_decide; eexists _, []; (split; [done |]); intros [=].
  - unfold manager_for, before_add in *.
    destruct (managers (cl σ) !! pchannel) as [r0 |] eqn:Hget.
    + injection Hfor as -> Hm. eexists _, []. split; [done |]. intros _.
      split_and!; fields; try done.
      * by rewrite insert_id.
      * intros e He. by apply elem_of_nil in He.
    + injection Hfor as <- _.
      eexists _, [EvNew _ pchannel; EvInsert pchannel _; EvRun _].
      split; [done |]. intros _. split_and!; by fields.
Qed.

Lemma Register_frame (σ : world') (vchannel : string) (pos : option Pos)
    (subPos : SubPos) (r : mgr_ref) (m0 : M) :
  let pchannel := ToPhysicalChannel vchannel in
  the_manager σ pchannel = (r, Some m0) →
  ∃ σ' res,
    go (Reg vchannel pos subPos) σ = Some (σ', res)
    ∧ (∀ p', p' ≠ pchannel → managers (cl σ') !! p' = managers (cl σ) !! p')
    ∧ (∀ r', r' ≠ r → heap σ' !! r' = heap σ !! r').
Proof.
  intros pchannel Hfor.
  rewrite (run_Register ToPhysicalChannel NewDispatcherManager _ _ _ _ _ _ Hfor).
  fold pchannel. cbv zeta.
  assert (∀ p', p' ≠ pchannel →
            managers (cl (before_add NewDispatcherManager σ pchannel)) !! p'
            = managers (cl σ) !! p') as Hreg.
  { intros p' Hne. unfold before_add.
    destruct (managers (cl σ) !! pchannel); simpl; [done |].
    by rewrite lookup_insert_ne. }
  assert (∀ r', r' ≠ r →
            heap (before_add NewDispatcherManager σ pchannel) !! r'
            = heap σ !! r') as Hheap.
  { intros r' Hne. unfold manager_for, before_add in *.
    destruct (managers (cl σ) !! pchannel); simpl; [done |].
    injection Hfor as <- _. by rewrite lookup_insert_ne. }
  destruct (Add m0 vchannel pos subPos) as [m1 [ch [err |]]]; simpl;
    [case_decide |]; eexists _, _; (split; [done |]); simpl; split;
    intros x Hne; rewrite ?lookup_delete_ne, ?lookup_insert_ne by done; auto.
Qed.

(** X2: a call on one topic leaves the registry entries of all other
    topics and the state of all other managers as they were: [Register]
    touches only the topic's entry and the manager it works on, and
    [Deregister] only the topic's entry and the registered manager. *)
Theorem other_topics_untouched (σ : world') (vchannel : string) :
  let pchannel := ToPhysicalChannel vchannel in
  (∀ (pos : option Pos) (subPos : SubPos) (r : mgr_ref) (m0 : M),
     the_manager σ pchannel = (r, Some m0) →
     ∃ σ' res,
       go (Reg vchannel pos subPos) σ = Some (σ', res)
       ∧ (∀ p', p' ≠ pchannel → managers (cl σ') !! p' = managers (cl σ) !! p')
       ∧ (∀ r', r' ≠ r → heap σ' !! r' = heap σ !! r'))
  ∧ (∀ (r : mgr_ref) (m : M),
       managers (cl σ) !! pchannel = Some r →
       heap σ !! r = Some m →
       ∃ σ',
         go (Dereg vchannel) σ = Some (σ', tt)
         ∧ (∀ p', p' ≠ pchannel → managers (cl σ') !! p' = managers (cl σ) !! p')
         ∧ (∀ r', r' ≠ r → heap σ' !! r' = heap σ !! r')).
Proof.
  intros pchannel. split.
  - intros pos subPos r m0 Hfor.
    by apply (Register_frame σ vchannel pos subPos r m0).
  - intros r m Hget Hheap.
    pose proof (run_Deregister ToPhysicalChannel NewDispatcherManager σ vchannel)
      as Hrun.
    cbv zeta in Hrun. fold pchannel in Hrun. rewrite Hget, Hheap in Hrun.
    rewrite Hrun.
    case_decide; eexists; (split; [done |]); simpl; split;
      intros x Hne; by rewrite ?lookup_delete_ne, ?lookup_insert_ne by done.
Qed.

(** X3: on a topic without a manager, a [Register] that succeeds followed
    by the [Deregister] of the same subscription, after which the manager
    holds no target, leaves the client as it was: the registry is the one
    before the two calls, and the manager made for the occasion has been
    started, used and closed. *)
Theorem Register_Deregister_round_trip (σ : world') (vchannel : string)
    (pos : option Pos) (subPos : SubPos) (m1 : M) (ch : option Chan) :
  let pchannel := ToPhysicalChannel vchannel in
  let r := fresh (dom (heap σ)) in
  managers (cl σ) !! pchannel = None →
  Add (NewDispatcherManager pchannel (role (cl σ)) (nodeID (cl σ))
                            (factory (cl σ))) vchannel pos subPos
    = (m1, (ch, None)) →
  Num (Remove m1 vchannel) = 0 →
  ∃ σ',
    go (Reg vchannel pos subPos ≫= λ _, Dereg vchannel) σ = Some (σ', tt)
    ∧ cl σ' = cl σ
    ∧ heap σ' = <[r := Close (Remove m1 vchannel)]> (heap σ)
    ∧ trace σ' = trace σ ++ [EvNew r pchannel; EvInsert pchannel r; EvRun r;
                             EvAdd r vchannel; EvRemove r vchannel;
                             EvClose r; EvGetAndRemove pchannel].
Proof.
  intros pchannel r Hget Hadd Hnum.
  assert (the_manager σ pchannel
          = (r, Some (NewDispatcherManager pchannel (role (cl σ))
                        (nodeID (cl σ)) (factory (cl σ))))) as Hfor.
  { unfold manager_for. by rewrite Hget. }
  assert (go (Reg vchannel pos subPos ≫= λ _, Dereg vchannel) σ
          = match go (Reg vchannel pos subPos) σ with
            | Some (σ1, _) => go (Dereg vchannel) σ1
            | None => None
            end) as ->.
  { apply (run_bind NewDispatcherManager). }
  rewrite (run_Register ToPhysicalChannel NewDispatcherManager _ _ _ _ _ _ Hfor).
  fold pchannel. cbv zeta. rewrite Hadd. cbn [fst snd].
  rewrite (run_Deregister ToPhysicalChannel NewDispatcherManager).
  cbv zeta. fold pchannel. unfold before_add. rewrite Hget. fold r. fields.
  rewrite decide_True by done.
  eexists. split; [done |]. split_and!; fields; try done.
  rewrite delete_id by done. by destruct (cl σ).
Qed.

Lemma created_close_events (pchannel : string) (l : list (string * mgr_ref)) :
  created pchannel (flat_map (λ e, [EvGetAndRemove e.1; EvClose e.2]) l) = [].
Proof. by induction l as [| e l IH]. Qed.

Lemma ClientClose_run (picks : list nat) (σ : world') :
  (∀ p r, managers (cl σ) !! p = Some r → is_Some (heap σ !! r)) →
  ∃ σ1 visited,
    go (ClientClose picks) σ = Some (σ1, tt)
    ∧ visited ≡ₚ map_to_list (managers (cl σ))
    ∧ managers (cl σ1) = ∅
    ∧ dom (heap σ1) = dom (heap σ)
    ∧ role (cl σ1) = role (cl σ)
    ∧ nodeID (cl σ1) = nodeID (cl σ)
    ∧ factory (cl σ1) = factory (cl σ)
    ∧ trace σ1 = trace σ ++ flat_map (λ e, [EvGetAndRemove e.1; EvClose e.2])
                                     visited
    ∧ (∀ r, r ∉ visited.*2 → heap σ1 !! r = heap σ !! r).
Proof.
  intros Halloc.
  assert (∀ l (σ0 : world'),
            (∀ e, e ∈ l → is_Some (heap σ0 !! e.2)) →
            ∃ σ1,
              go (for_each l (λ e, call (MapGetAndRemove e.1);;
                                   call (MgrClose e.2))) σ0 = Some (σ1, tt)
              ∧ role (cl σ1) = role (cl σ0)
              ∧ nodeID (cl σ1) = nodeID (cl σ0)
              ∧ factory (cl σ1) = factory (cl σ0)
              ∧ (∀ r, r ∉ l.*2 → heap σ1 !! r = heap σ0 !! r)) as Hloop.
  { induction l as [| [p0 r0] l IH]; intros σ0 Hl.
    - by exists σ0.
    - destruct (Hl (p0, r0)) as [m0 Hm0]; [by left |]. simpl in Hm0.
      destruct (IH (emit (EvClose r0)
                      (set_heap (insert r0 (Close m0))
                         (emit (EvGetAndRemove p0)
                            (set_managers (delete p0) σ0)))))
        as (σ1 & Hrun & Hrole & Hnode & Hfac & Hheap).
      { intros e He. simpl. apply lookup_insert_is_Some'. right.
        apply Hl. by right. }
      exists σ1. split_and!; try done.
      + simpl. rewrite Hm0. simpl. exact Hrun.
      + intros r Hr. rewrite fmap_cons, not_elem_of_cons in Hr.
        destruct Hr as [Hne Hr]. rewrite (Hheap r Hr). simpl.
        by rewrite lookup_insert_ne. }
  set (visited := arrange picks (map_to_list (managers (cl σ)))).
  assert (visited ≡ₚ map_to_list (managers (cl σ))) as Hperm
    by apply arrange_perm.
  assert (∀ p r, (p, r) ∈ visited ↔ managers (cl σ) !! p = Some r) as Hvisited.
  { intros p r. by rewrite Hperm, elem_of_map_to_list. }
  destruct (close_loop NewDispatcherManager (λ _, True) visited (λ _, I) σ)
    as (σ1 & Hrun & Hreg & Hdom & Htrace & _ & _).
  { intros [p r] He%Hvisited. by apply (Halloc p). }
  destruct (Hloop visited σ) as (σ1' & Hrun' & Hrole & Hnode & Hfac & Hheap).
  { intros [p r] He%Hvisited. by apply (Halloc p). }
  rewrite Hrun in Hrun'. injection Hrun' as <-.
  exists σ1, visited. split_and!; try done.
  apply map_empty. intros p. rewrite Hreg. case_decide as Hin; [done |].
  apply not_elem_of_dom. intros Hp. apply Hin.
  apply elem_of_dom in Hp as [r Hp].
  apply list_elem_of_fmap. exists (p, r). split; [done |].
  by apply Hvisited.
Qed.

Lemma ClientClose_empty (picks : list nat) (σ : world') :
  managers (cl σ) = ∅ → go (ClientClose picks) σ = Some (σ, tt).
Proof.
  intros Hempty. unfold ClientClose. simpl.
  by rewrite Hempty, map_to_list_empty, arrange_nil.
Qed.

(** X4: once [Close] has returned, a second [Close] and any [Deregister]
    return at once and change nothing: the registry is empty, so [Range]
    visits no entry and [Get] finds no manager. *)
Theorem nothing_left_after_Close (picks : list nat) (σ : world') :
  (∀ p r, managers (cl σ) !! p = Some r → is_Some (heap σ !! r)) →
  ∃ σ1,
    go (ClientClose picks) σ = Some (σ1, tt)
    ∧ (∀ picks', go (ClientClose picks') σ1 = Some (σ1, tt))
    ∧ (∀ vchannel, go (Dereg vchannel) σ1 = Some (σ1, tt)).
Proof.
  intros Halloc.
  destruct (ClientClose_run picks σ Halloc) as (σ1 & visited & Hrun & _ & Hempty & _).
  exists σ1. split_and!; [done | intros picks'; by apply ClientClose_empty |].
  intros vchannel.
  rewrite (run_Deregister ToPhysicalChannel NewDispatcherManager). cbv zeta.
  by rewrite Hempty, lookup_empty.
Qed.

(** X5: [Close] does not disable the client: a [Register] after it is
    served like a first registration, by a new manager at a reference not
    used before, which is registered when [Add] succeeds; no manager from
    before [Close] is registered again. *)
Theorem Register_after_Close (picks : list nat) (σ : world')
    (vchannel : string) (pos : option Pos) (subPos : SubPos) :
  let pchannel := ToPhysicalChannel vchannel in
  let r := fresh (dom (heap σ)) in
  (∀ p r, managers (cl σ) !! p = Some r → is_Some (heap σ !! r)) →
  ∃ σ1 σ2 res,
    go (ClientClose picks) σ = Some (σ1, tt)
    ∧ go (Reg vchannel pos subPos) σ1 = Some (σ2, res)
    ∧ heap σ !! r = None
    ∧ heap σ2 !! r
      = Some (first_registration ToPhysicalChannel NewDispatcherManager
                (cl σ) vchannel pos subPos)
    ∧ created pchannel (trace σ2) = created pchannel (trace σ) ++ [r]
    ∧ (res.2 = None → managers (cl σ2) !! pchannel = Some r)
    ∧ (∀ p' r', managers (cl σ2) !! p' = Some r' → p' = pchannel ∧ r' = r).
Proof.
  intros pchannel r Halloc.
  destruct (ClientClose_run picks σ Halloc)
    as (σ1 & visited & Hrun & _ & Hempty & Hdom & Hrole & Hnode & Hfac
        & Htrace & _).
  assert (managers (cl σ1) !! ToPhysicalChannel vchannel = None) as Hget.
  { by rewrite Hempty, lookup_empty. }
  destruct (Register_no_manager ToPhysicalChannel NewDispatcherManager
              σ1 vchannel pos subPos Hget)
    as (σ2 & res & Hreg & Hheap & Hcreated & Hok & Honly).
  rewrite Hdom in *. fold r pchannel in Hheap, Hcreated, Hok, Honly.
  exists σ1, σ2, res. split_and!; try done.
  - apply fresh_not_allocated.
  - rewrite Hheap, lookup_insert_eq. f_equal.
    unfold first_registration. by rewrite Hrole, Hnode, Hfac.
  - rewrite Hcreated, Htrace, created_app, created_close_events.
    by rewrite app_nil_r.
  - intros p' r' Hp'.
    destruct (decide (p' = pchannel)) as [-> | Hne]; [split; [done | by apply Honly] |].
    exfalso.
    destruct (Register_frame σ1 vchannel pos subPos r
                (NewDispatcherManager pchannel (role (cl σ1)) (nodeID (cl σ1))
                   (factory (cl σ1))))
      as (σ2' & res' & Hreg' & Hother & _).
    { unfold manager_for. rewrite Hget. by rewrite Hdom. }
    rewrite Hreg in Hreg'. injection Hreg' as <- <-.
    rewrite (Hother p' Hne), Hempty, lookup_empty in Hp'. done.
Qed.

Lemma step_first {A X : Type} (σ : world') (o : op X) (k : X → prog A)
    (t : prog A) :
  step_thread NewDispatcherManager 0 (@pair _ (pool A) σ [Vis o k; t])
  = match exec NewDispatcherManager o σ with
    | Some (σ', x) => Some (@pair _ (pool A) σ' [k x; t])
    | None => None
    end.
Proof. done. Qed.

Lemma step_second {A X : Type} (σ : world') (o : op X) (k : X → prog A)
    (t : prog A) :
  step_thread NewDispatcherManager 1 (@pair _ (pool A) σ [t; Vis o k])
  = match exec NewDispatcherManager o σ with
    | Some (σ', x) => Some (@pair _ (pool A) σ' [t; k x])
    | None => None
    end.
Proof. done. Qed.

(** X6: [Deregister] reads [Num] and closes in separate steps.  When a
    goroutine in [Deregister] has removed the last target and read [Num] as
    0, and a goroutine in [Register] on the same topic then gets the
    manager and adds a target with success, the first goroutine still
    closes the manager and takes it out of the registry: the second call
    has returned a channel and no error, and its manager is closed and
    registered nowhere. *)
Theorem Deregister_race_closes_new_target (σ : world') (v1 v2 : string)
    (pos : option Pos) (subPos : SubPos) (r : mgr_ref) (m m2 : M)
    (ch : option Chan) :
  let pchannel := ToPhysicalChannel v1 in
  ToPhysicalChannel v2 = pchannel →
  managers (cl σ) !! pchannel = Some r →
  heap σ !! r = Some m →
  Num (Remove m v1) = 0 →
  Add (Remove m v1) v2 pos subPos = (m2, (ch, None)) →
  ∃ σ',
    run_schedule NewDispatcherManager add_between_remove_and_close
      (σ, [bind (Dereg v1) (λ _, Ret None);
           bind (Reg v2 pos subPos) (λ res, Ret (Some res))])
    = Some (σ', [Ret None; Ret (Some (ch, None))])
    ∧ managers (cl σ') !! pchannel = None
    ∧ heap σ' !! r = Some (Close m2)
    ∧ trace σ' = trace σ ++ [EvRemove r v1; EvAdd r v2; EvClose r;
                             EvGetAndRemove pchannel].
Proof.
  intros pchannel Hsame Hget Hheap Hnum Hadd.
  unfold add_between_remove_and_close, Register, Deregister.
  rewrite Hsame. fold pchannel.
  simpl.
  repeat (first [ rewrite step_first | rewrite step_second | rewrite Hget
                | rewrite Hheap | rewrite Hnum | rewrite Hadd
                | rewrite lookup_insert_eq ]; simpl).
  eexists. split; [done |]. split_and!; fields; try done.
Qed.

End ClientMore.

(** * The life of a manager under one caller *)
Section Lifecycle.
Context {Pos Chan Err Factory M : Type}.
Context `{!DispatcherManager Pos Chan Err M}.
Variable ToPhysicalChannel : string → string.
Variable NewDispatcherManager : string → string → Z → Factory → M.

Abbreviation world'' := (state Factory M).
Abbreviation calls_from :=
  (do_calls (Pos := Pos) (Chan := Chan) (Err := Err)
            ToPhysicalChannel NewDispatcherManager).
Abbreviation call_from :=
  (do_call (Pos := Pos) (Chan := Chan) (Err := Err)
           ToPhysicalChannel NewDispatcherManager).
Abbreviation calls_in :=
  (calls_of (Pos := Pos) (Chan := Chan) (Err := Err) NewDispatcherManager).
Abbreviation log_of :=
  (calls_of_call (Pos := Pos) (Chan := Chan) (Err := Err)
                 ToPhysicalChannel NewDispatcherManager).
Abbreviation log_of_all :=
  (calls_of_all (Pos := Pos) (Chan := Chan) (Err := Err)
                ToPhysicalChannel NewDispatcherManager).

Lemma runs_app (r : mgr_ref) (t1 t2 : list event) :
  runs r (t1 ++ t2) = (runs r t1 + runs r t2)%nat.
Proof. unfold runs. by rewrite filter_app, length_app. Qed.

Lemma runs_cons (r : mgr_ref) (e : event) (t : list event) :
  runs r (e :: t) = ((if decide (e = EvRun r) then 1 else 0) + runs r t)%nat.
Proof. unfold runs. rewrite filter_cons. by case_decide. Qed.

Lemma runs_perm (r : mgr_ref) (t1 t2 : list event) :
  t1 ≡ₚ t2 → runs r t1 = runs r t2.
Proof. unfold runs. by intros ->. Qed.

Lemma runs_none (r : mgr_ref) (t : list event) :
  EvRun r ∉ t → runs r t = 0%nat.
Proof.
  unfold runs. induction t as [| e t IH]; [done |].
  rewrite not_elem_of_cons. intros [Hne Ht].
  rewrite filter_cons, decide_False by done. by apply IH.
Qed.

(** Events about a reference that is not allocated have not happened. *)
Lemma lifecycle_unallocated (σ : world'') (r : mgr_ref) (e : event) :
  lifecycle σ → heap σ !! r = None → ref_of e = Some r → e ∉ trace σ.
Proof.
  intros (Hev & _) Hnone Href Hin.
  destruct (Hev e r Hin Href) as [m Hm]. congruence.
Qed.

(** A call on a registered manager that neither closes nor creates. *)
Lemma lifecycle_touch (σ σ' : world'') (r : mgr_ref) (e : event) :
  lifecycle σ →
  is_Some (heap σ !! r) →
  ref_of e = Some r →
  (∀ r', e ≠ EvClose r' ∧ e ≠ EvRun r') →
  (∀ r' p', e ≠ EvNew r' p') →
  managers (cl σ') = managers (cl σ) →
  dom (heap σ') = dom (heap σ) →
  trace σ' = trace σ ++ [e] →
  lifecycle σ'.
Proof.
  intros (Hev & Hreg & Halloc & Hnew) Hr Href Hkind Hkind' Hm Hd Ht.
  assert (∀ x, is_Some (heap σ' !! x) ↔ is_Some (heap σ !! x)) as Hsame.
  { intros x. by rewrite <- !elem_of_dom, Hd. }
  unfold lifecycle. rewrite Hm, Ht. split_and!.
  - intros e' r' [Hin | Hin%list_elem_of_singleton]%elem_of_app Href';
      apply Hsame; [by eapply Hev |].
    subst e'. by simplify_eq.
  - intros p' r' Hp'. destruct (Hreg p' r' Hp') as [Hcreated Hopen].
    split; [apply elem_of_app; by left |].
    intros [Hin | Hin%list_elem_of_singleton]%elem_of_app; [done |].
    by destruct (Hkind r').
  - intros r' Hr'%Hsame. destruct (Halloc r' Hr') as [Hruns Hstate].
    split.
    + rewrite runs_app, Hruns, runs_none; [done |].
      intros Hin%list_elem_of_singleton. by destruct (Hkind r').
    + destruct Hstate as [? | Hclosed]; [by left | right].
      apply elem_of_app. by left.
  - intros r' p1 p2 [H1 | H1%list_elem_of_singleton]%elem_of_app
                    [H2 | H2%list_elem_of_singleton]%elem_of_app;
      [by eapply Hnew | by destruct (Hkind' r' p2)
       | by destruct (Hkind' r' p1) | by destruct (Hkind' r' p1)].
Qed.

(** The creation of a manager for a topic that has none. *)
Lemma lifecycle_create (σ σ' : world'') (p : string) (r : mgr_ref) :
  lifecycle σ →
  managers (cl σ) !! p = None →
  heap σ !! r = None →
  managers (cl σ') = <[p := r]> (managers (cl σ)) →
  dom (heap σ') = {[r]} ∪ dom (heap σ) →
  trace σ' = trace σ ++ [EvNew r p; EvInsert p r; EvRun r] →
  lifecycle σ'.
Proof.
  intros Hlife Hp Hr Hm Hd Ht.
  pose proof (lifecycle_unallocated σ r) as Hnone.
  destruct Hlife as (Hev & Hreg & Halloc & Hnew).
  set (Hlife := conj Hev (conj Hreg (conj Halloc Hnew)) : lifecycle σ).
  assert (∀ x, is_Some (heap σ' !! x) ↔ x = r ∨ is_Some (heap σ !! x)) as Hsame.
  { intros x. by rewrite <- !elem_of_dom, Hd, elem_of_union, elem_of_singleton. }
  assert (∀ e, e ∈ trace σ' ↔
               e ∈ trace σ ∨ e = EvNew r p ∨ e = EvInsert p r ∨ e = EvRun r)
    as Hin.
  { intros e. rewrite Ht, elem_of_app, !elem_of_cons, elem_of_nil. tauto. }
  unfold lifecycle. rewrite Hm. split_and!.
  - intros e r' [He | [-> | [-> | ->]]]%Hin Href; apply Hsame;
      [right; by eapply Hev | left; simpl in Href; congruence ..].
  - intros p' r' Hp'.
    destruct (decide (p' = p)) as [-> | Hne].
    + rewrite lookup_insert_eq in Hp'. injection Hp' as <-.
      split; [apply Hin; by right; left |].
      intros [He | [He | [He | He]]]%Hin; try done.
      by apply (Hnone (EvClose r) Hlife Hr).
    + rewrite lookup_insert_ne in Hp' by done.
      destruct (Hreg p' r' Hp') as [Hcreated Hopen].
      split; [apply Hin; by left |].
      intros [He | [He | [He | He]]]%Hin; done.
  - intros r' Hr'%Hsame. rewrite Ht, runs_app.
    destruct Hr' as [-> | Hr'].
    + split.
      * rewrite (runs_none r (trace σ)), !runs_cons;
          [by rewrite !decide_False, decide_True by done |].
        by apply (Hnone (EvRun r) Hlife Hr).
      * left. exists p. apply lookup_insert_eq.
    + assert (r' ≠ r) as Hne.
      { intros ->. destruct Hr' as [m Hm']. congruence. }
      destruct (Halloc r' Hr') as [Hruns Hstate]. split.
      * rewrite Hruns, !runs_cons.
        rewrite !decide_False; [done | congruence | done | done].
      * destruct Hstate as [[p' Hp'] | Hclosed].
        -- left. exists p'. rewrite lookup_insert_ne; [done |]. congruence.
        -- right. rewrite <- Ht. apply Hin. by left.
  - intros r' p1 p2 [H1 | [H1 | [H1 | H1]]]%Hin [H2 | [H2 | [H2 | H2]]]%Hin;
      try done; simplify_eq; try done.
    + by eapply Hnew.
    + by destruct (Hnone (EvNew r p1) Hlife Hr).
    + by destruct (Hnone (EvNew r p2) Hlife Hr).
Qed.

(** The closing of a registered manager and its removal from the registry,
    in either order. *)
Lemma lifecycle_close (σ σ' : world'') (p : string) (r : mgr_ref) :
  lifecycle σ →
  managers (cl σ) !! p = Some r →
  managers (cl σ') = delete p (managers (cl σ)) →
  dom (heap σ') = dom (heap σ) →
  trace σ' ≡ₚ trace σ ++ [EvClose r; EvGetAndRemove p] →
  lifecycle σ'.
Proof.
  intros (Hev & Hreg & Halloc & Hnew) Hp Hm Hd Ht.
  assert (∀ x, is_Some (heap σ' !! x) ↔ is_Some (heap σ !! x)) as Hsame.
  { intros x. by rewrite <- !elem_of_dom, Hd. }
  assert (∀ e, e ∈ trace σ' ↔
               e ∈ trace σ ∨ e = EvClose r ∨ e = EvGetAndRemove p) as Hin.
  { intros e. rewrite Ht, elem_of_app, !elem_of_cons, elem_of_nil. tauto. }
  destruct (Hreg p r Hp) as [Hcreated _].
  unfold lifecycle. rewrite Hm. split_and!.
  - intros e r' [He | [-> | ->]]%Hin Href; apply Hsame;
      [by eapply Hev | | done].
    simplify_eq. by eapply Hev.
  - intros p' r' [Hne Hp']%lookup_delete_Some.
    destruct (Hreg p' r' Hp') as [Hcreated' Hopen].
    split; [apply Hin; by left |]. intros [He | [He | He]]%Hin; try done.
    simplify_eq. by apply Hne, (Hnew r p p').
  - intros r' Hr'%Hsame. rewrite (runs_perm _ _ _ Ht), runs_app.
    destruct (Halloc r' Hr') as [Hruns Hstate]. split.
    + rewrite Hruns, !runs_cons. by rewrite !decide_False by done.
    + destruct Hstate as [[p' Hp'] | Hclosed]; [| right; apply Hin; by left].
      destruct (decide (p' = p)) as [-> | Hne].
      * right. apply Hin. right. left. congruence.
      * left. exists p'. by rewrite lookup_delete_ne.
  - intros r' p1 p2 [H1 | [H1 | H1]]%Hin [H2 | [H2 | H2]]%Hin; try done.
    by eapply Hnew.
Qed.

Lemma lifecycle_registered (σ : world'') (p : string) (r : mgr_ref) :
  lifecycle σ → managers (cl σ) !! p = Some r → is_Some (heap σ !! r).
Proof.
  intros (Hev & Hreg & _) Hp. destruct (Hreg p r Hp) as [Hcreated _].
  by apply (Hev (EvNew r p) r).
Qed.

Lemma lifecycle_NewClient (f : Factory) (role : string) (nodeID : Z) :
  lifecycle (NewClient (M := M) f role nodeID).
Proof.
  unfold lifecycle, NewClient. simpl. split_and!.
  - intros e r He. by apply elem_of_nil in He.
  - intros p r Hp. by rewrite lookup_empty in Hp.
  - intros r [m Hm]. by rewrite lookup_empty in Hm.
  - intros r p p' He. by apply elem_of_nil in He.
Qed.

(** Closing and removal as [Register] and [Deregister] do it. *)
Lemma lifecycle_evict (σ : world'') (p : string) (r : mgr_ref) (m : M) :
  lifecycle σ →
  managers (cl σ) !! p = Some r →
  lifecycle (emit (EvGetAndRemove p)
               (set_managers (delete p)
                  (emit (EvClose r) (set_heap (insert r m) σ)))).
Proof.
  intros Hlife Hp. apply (lifecycle_close σ _ p r); try done; simpl.
  - apply dom_insert_lookup_L. by apply (lifecycle_registered σ p).
  - by rewrite <- app_assoc.
Qed.

Lemma lifecycle_Register (σ : world'') (vchannel : string) (pos : option Pos)
    (subPos : SubPos) :
  lifecycle σ →
  ∃ σ' res,
    run NewDispatcherManager (Register ToPhysicalChannel vchannel pos subPos) σ
      = Some (σ', res)
    ∧ lifecycle σ'.
Proof.
  intros Hlife. set (p := ToPhysicalChannel vchannel).
  assert (∃ r m0, manager_for NewDispatcherManager σ p = (r, Some m0)
                  ∧ lifecycle (before_add NewDispatcherManager σ p))
    as (r & m0 & Hfor & Hlife1).
  { unfold manager_for, before_add.
    destruct (managers (cl σ) !! p) as [r |] eqn:Hp.
    - destruct (lifecycle_registered σ p r Hlife Hp) as [m0 Hm0].
      exists r, m0. by rewrite Hm0.
    - eexists _, _. split; [done |].
      apply (lifecycle_create σ _ p (fresh (dom (heap σ)))); try done; simpl.
      + apply fresh_not_allocated.
      + apply dom_insert_L.
      + by rewrite <- !app_assoc. }
  destruct (before_add_heap NewDispatcherManager σ p r m0 Hfor) as [Hheap1 Hget1].
  rewrite (run_Register ToPhysicalChannel NewDispatcherManager _ _ _ _ _ _ Hfor).
  fold p. cbv zeta.
  set (σ1 := before_add NewDispatcherManager σ p) in *.
  assert (∀ m1, lifecycle (emit (EvAdd r vchannel) (set_heap (insert r m1) σ1)))
    as Hlife2.
  { intros m1. apply (lifecycle_touch σ1 _ r (EvAdd r vchannel)); try done; simpl.
    apply dom_insert_lookup_L. by eexists. }
  destruct (Add m0 vchannel pos subPos) as [m1 [ch [err |]]]; simpl;
    [case_decide |]; eexists _, _; (split; [done |]); [| done | done].
  by apply lifecycle_evict.
Qed.

Lemma lifecycle_Deregister (σ : world'') (vchannel : string) :
  lifecycle σ →
  ∃ σ',
    run NewDispatcherManager (Deregister ToPhysicalChannel vchannel) σ
      = Some (σ', tt)
    ∧ lifecycle σ'.
Proof.
  intros Hlife.
  rewrite (run_Deregister ToPhysicalChannel NewDispatcherManager). cbv zeta.
  destruct (managers (cl σ) !! ToPhysicalChannel vchannel) as [r |] eqn:Hp;
    [| by exists σ].
  destruct (lifecycle_registered σ _ r Hlife Hp) as [m Hm]. rewrite Hm.
  assert (lifecycle (emit (EvRemove r vchannel)
                       (set_heap (insert r (Remove m vchannel)) σ))) as Hlife1.
  { apply (lifecycle_touch σ _ r (EvRemove r vchannel)); try done; simpl.
    apply dom_insert_lookup_L. by eexists. }
  case_decide; eexists; (split; [done |]); [| done].
  by apply lifecycle_evict.
Qed.

Lemma lifecycle_Close_loop (l : list (string * mgr_ref)) :
  ∀ σ : world'',
    NoDup l.*1 →
    (∀ e, e ∈ l → managers (cl σ) !! e.1 = Some e.2) →
    lifecycle σ →
    ∃ σ',
      run NewDispatcherManager
          (for_each l (λ e, call (MapGetAndRemove e.1);; call (MgrClose e.2))) σ
        = Some (σ', tt)
      ∧ lifecycle σ'
      ∧ calls_in
          (for_each l (λ e, call (MapGetAndRemove e.1);; call (MgrClose e.2))) σ
        = OnClose <$> l.*2
      ∧ trace σ' = trace σ ++ flat_map (λ e, [EvGetAndRemove e.1; EvClose e.2]) l.
Proof.
  induction l as [| [p0 r0] l IH]; intros σ Hnd Hl Hlife.
  - exists σ. by rewrite app_nil_r.
  - apply NoDup_cons in Hnd as [Hp0 Hnd].
    assert (managers (cl σ) !! p0 = Some r0) as Hget by (apply (Hl (p0, r0)); by left).
    destruct (lifecycle_registered σ p0 r0 Hlife Hget) as [m0 Hm0].
    set (σ1 := emit (EvClose r0)
                 (set_heap (insert r0 (Close m0))
                    (emit (EvGetAndRemove p0) (set_managers (delete p0) σ)))).
    destruct (IH σ1 Hnd) as (σ' & Hrun & Hlife' & Hlog & Htrace).
    + intros [p r] He. simpl. rewrite lookup_delete_ne.
      * by apply (Hl (p, r)); right.
      * intros <-. apply Hp0. apply list_elem_of_fmap. by exists (p0, r).
    + apply (lifecycle_close σ σ1 p0 r0); try done; simpl.
      * apply dom_insert_lookup_L. by eexists.
      * rewrite <- app_assoc. apply Permutation_app_head, perm_swap.
    + exists σ'. split_and!; [| done | |].
      * simpl. rewrite Hm0. simpl. exact Hrun.
      * simpl. rewrite Hm0. simpl. f_equal. exact Hlog.
      * rewrite Htrace. simpl. by rewrite <- !app_assoc.
Qed.

Lemma lifecycle_call (c : client_call) (σ : world'') :
  lifecycle σ → ∃ σ', call_from c σ = Some σ' ∧ lifecycle σ'.
Proof.
  intros Hlife. destruct c as [v pos subPos | v | picks]; unfold do_call.
  - destruct (lifecycle_Register σ v pos subPos Hlife) as (σ' & res & -> & Hl).
    by exists σ'.
  - destruct (lifecycle_Deregister σ v Hlife) as (σ' & -> & Hl). by exists σ'.
  - destruct (lifecycle_Close_loop (arrange picks (map_to_list (managers (cl σ)))) σ)
      as (σ' & Hrun & Hl & _); [| | done |].
    + rewrite arrange_perm. apply NoDup_fst_map_to_list.
    + intros [p r]. rewrite arrange_perm. apply elem_of_map_to_list.
    + exists σ'. split; [| done].
      assert (run NewDispatcherManager (ClientClose picks) σ = Some (σ', tt)) as ->
        by exact Hrun.
      done.
Qed.

Lemma lifecycle_calls (l : list client_call) (σ : world'') :
  lifecycle σ → ∃ σ', calls_from l σ = Some σ' ∧ lifecycle σ'.
Proof.
  revert σ. induction l as [| c l IH]; intros σ Hlife; simpl; [by exists σ |].
  destruct (lifecycle_call c σ Hlife) as (σ1 & -> & Hlife1). by apply IH.
Qed.

(** The calls on managers that [Register] makes. *)
Lemma calls_of_Register (σ : world'') (vchannel : string) (pos : option Pos)
    (subPos : SubPos) (r : mgr_ref) (m0 : M) :
  let pchannel := ToPhysicalChannel vchannel in
  manager_for NewDispatcherManager σ pchannel = (r, Some m0) →
  calls_in (Register ToPhysicalChannel vchannel pos subPos) σ =
  match managers (cl σ) !! pchannel with
  | Some _ => []
  | None => [OnRun r]
  end
  ++ OnAdd r vchannel
     :: match (Add m0 vchannel pos subPos).2.2 with
        | Some _ =>
            OnNum r
            :: (if decide (Num (Add m0 vchannel pos subPos).1 = 0)
                then [OnClose r] else [])
        | None => []
        end.
Proof.
  intros pchannel Hfor.
  unfold Register, manager_for in *. fold pchannel in Hfor |- *. simpl.
  destruct (managers (cl σ) !! pchannel) as [r0 |] eqn:Hget; simpl.
  - injection Hfor as -> Hm. rewrite Hm.
    destruct (Add m0 vchannel pos subPos) as [m1 [ch [err |]]]; simpl; [| done].
    rewrite lookup_insert_eq. case_decide; simpl; [| done].
    by rewrite lookup_insert_eq.
  - injection Hfor as <- <-.
    rewrite lookup_insert_eq. simpl. rewrite lookup_insert_eq.
    destruct (Add _ vchannel pos subPos) as [m1 [ch [err |]]]; simpl; [| done].
    rewrite lookup_insert_eq. case_decide; simpl; [| done].
    by rewrite lookup_insert_eq.
Qed.

(** The calls on managers that [Deregister] makes. *)
Lemma calls_of_Deregister (σ : world'') (vchannel : string) (r : mgr_ref)
    (m : M) :
  managers (cl σ) !! ToPhysicalChannel vchannel = Some r →
  heap σ !! r = Some m →
  calls_in (Deregister ToPhysicalChannel vchannel) σ =
  OnRemove r vchannel :: OnNum r
  :: (if decide (Num (Remove m vchannel) = 0) then [OnClose r] else []).
Proof.
  intros Hget Hm. unfold Deregister. simpl. rewrite Hget. simpl.
  rewrite Hm. simpl. rewrite lookup_insert_eq. case_decide; simpl; [| done].
  by rewrite lookup_insert_eq.
Qed.

Lemma no_call_after_close_app (t new : list manager_call) :
  no_call_after_close t →
  (∀ c, c ∈ new → OnClose (callee c) ∉ t) →
  no_call_after_close new →
  no_call_after_close (t ++ new).
Proof.
  intros Ht Hfresh Hnew i j r c Hi Hij Hj.
  destruct (decide (j < length t)%nat) as [Hlt | Hge].
  - rewrite lookup_app_l in Hi by lia. rewrite lookup_app_l in Hj by lia.
    by apply (Ht i j).
  - rewrite lookup_app_r in Hj by lia.
    destruct (decide (i < length t)%nat) as [Hilt | Hige].
    + rewrite lookup_app_l in Hi by lia. intros Href.
      apply (Hfresh c); [by eapply list_elem_of_lookup_2 |].
      rewrite Href. by eapply list_elem_of_lookup_2.
    + rewrite lookup_app_r in Hi by lia.
      apply (Hnew (i - length t)%nat (j - length t)%nat); [done | lia | done].
Qed.

(** Calls on one manager, its [Close] the last of them if it is there. *)
Lemma no_call_after_close_one (r : mgr_ref) (t : list manager_call) :
  (∀ c, c ∈ t → callee c = r) →
  (∀ i, t !! i = Some (OnClose r) → S i = length t) →
  no_call_after_close t.
Proof.
  intros Hone Hlast i j r' c Hi Hij Hj.
  assert (r' = r) as -> by (apply (Hone (OnClose r')); by eapply list_elem_of_lookup_2).
  apply Hlast in Hi. apply lookup_lt_Some in Hj. lia.
Qed.

(** The managers of distinct entries of the registry are distinct. *)
Lemma lifecycle_registry_inj (σ : world'') (p p' : string) (r : mgr_ref) :
  lifecycle σ →
  managers (cl σ) !! p = Some r → managers (cl σ) !! p' = Some r → p = p'.
Proof.
  intros (_ & Hreg & _ & Hnew) Hp Hp'.
  apply (Hnew r); [by apply Hreg in Hp as [? _] | by apply Hreg in Hp' as [? _]].
Qed.

(** The calls one client call makes on managers: they are on managers
    that have not been closed before, none follows the [Close] of its
    manager, and a manager whose [Close] is called is closed afterwards. *)
Lemma call_log (c : client_call) (σ : world'') :
  lifecycle σ →
  ∃ σ',
    call_from c σ = Some σ'
    ∧ lifecycle σ'
    ∧ (∀ e, e ∈ trace σ → e ∈ trace σ')
    ∧ (∀ c', c' ∈ log_of c σ → EvClose (callee c') ∉ trace σ)
    ∧ (∀ r, OnClose r ∈ log_of c σ → EvClose r ∈ trace σ')
    ∧ no_call_after_close (log_of c σ).
Proof.
  intros Hlife.
  assert (∀ r p, managers (cl σ) !! p = Some r → EvClose r ∉ trace σ) as Hopen.
  { intros r p Hp. by apply Hlife in Hp as [_ Hp]. }
  destruct c as [v pos subPos | v | picks]; unfold calls_of_call.
  - destruct (lifecycle_Register σ v pos subPos Hlife) as (σ' & res & Hrun & Hlife').
    exists σ'. unfold do_call. rewrite Hrun. split; [done |]. split; [done |].
    set (p := ToPhysicalChannel v) in *.
    assert (∃ r m0, manager_for NewDispatcherManager σ p = (r, Some m0)
                    ∧ EvClose r ∉ trace σ) as (r & m0 & Hfor & Hr).
    { unfold manager_for. destruct (managers (cl σ) !! p) as [r |] eqn:Hp.
      - destruct (lifecycle_registered σ p r Hlife Hp) as [m0 Hm0].
        exists r, m0. rewrite Hm0. split; [done |]. by apply (Hopen r p).
      - eexists _, _. split; [done |].
        apply (lifecycle_unallocated σ (fresh (dom (heap σ)))
                 (EvClose (fresh (dom (heap σ)))) Hlife);
          [apply fresh_not_allocated | done]. }
    rewrite (run_Register ToPhysicalChannel NewDispatcherManager _ _ _ _ _ _ Hfor)
      in Hrun.
    rewrite (calls_of_Register σ v pos subPos r m0 Hfor).
    fold p in Hrun |- *. cbv zeta in Hrun.
    assert (∀ e, e ∈ trace σ → e ∈ trace (before_add NewDispatcherManager σ p))
      as Hpre.
    { intros e He. unfold before_add.
      destruct (managers (cl σ) !! p); [done |]. simpl.
      rewrite !elem_of_app. by repeat left. }
    destruct (managers (cl σ) !! p) as [r0 |];
      destruct (Add m0 v pos subPos) as [m1 [ch [err |]]]; simpl in Hrun |- *;
      try case_decide; injection Hrun as <- <-; simpl;
      (split_and!;
       [ intros e He%Hpre; rewrite ?elem_of_app; by repeat left
       | intros c' Hc';
         repeat (apply elem_of_cons in Hc' as [-> | Hc']; [done |]);
         by apply elem_of_nil in Hc'
       | intros r' Hr';
         repeat (apply elem_of_cons in Hr' as [Heq | Hr'];
                 [simplify_eq; rewrite ?elem_of_app, ?list_elem_of_singleton;
                  by auto |]);
         by apply elem_of_nil in Hr'
       | apply (no_call_after_close_one r);
         [ intros c' Hc';
           repeat (apply elem_of_cons in Hc' as [-> | Hc']; [done |]);
           by apply elem_of_nil in Hc'
         | intros i Hi; simpl;
           repeat (destruct i as [| i]; simplify_eq/=; try done) ] ]).
  - destruct (lifecycle_Deregister σ v Hlife) as (σ' & Hrun & Hlife').
    exists σ'. unfold do_call. rewrite Hrun. split; [done |]. split; [done |].
    rewrite (run_Deregister ToPhysicalChannel NewDispatcherManager) in Hrun.
    cbv zeta in Hrun.
    destruct (managers (cl σ) !! ToPhysicalChannel v) as [r |] eqn:Hp.
    + destruct (lifecycle_registered σ _ r Hlife Hp) as [m Hm].
      rewrite Hm in Hrun. rewrite (calls_of_Deregister σ v r m Hp Hm).
      pose proof (Hopen r _ Hp) as Hr.
      case_decide; injection Hrun as <-; simpl;
        (split_and!;
         [ intros e He; rewrite ?elem_of_app; by repeat left
         | intros c' Hc';
           repeat (apply elem_of_cons in Hc' as [-> | Hc']; [done |]);
           by apply elem_of_nil in Hc'
         | intros r' Hr';
           repeat (apply elem_of_cons in Hr' as [Heq | Hr'];
                   [simplify_eq; rewrite ?elem_of_app, ?list_elem_of_singleton;
                    by auto |]);
           by apply elem_of_nil in Hr'
         | apply (no_call_after_close_one r);
           [ intros c' Hc';
             repeat (apply elem_of_cons in Hc' as [-> | Hc']; [done |]);
             by apply elem_of_nil in Hc'
           | intros i Hi; simpl;
             repeat (destruct i as [| i]; simplify_eq/=; try done) ] ]).
    + injection Hrun as <-.
      assert (calls_in (Deregister ToPhysicalChannel v) σ = []) as ->.
      { unfold Deregister. simpl. by rewrite Hp. }
      split_and!; [done | by intros c' ?%elem_of_nil | by intros r ?%elem_of_nil |].
      intros i j r c Hi. by destruct i.
  - set (visited := arrange picks (map_to_list (managers (cl σ)))).
    assert (∀ p r, (p, r) ∈ visited ↔ managers (cl σ) !! p = Some r) as Hvisited.
    { intros p r. unfold visited. by rewrite arrange_perm, elem_of_map_to_list. }
    assert (NoDup visited.*1) as Hnd.
    { unfold visited. rewrite arrange_perm. apply NoDup_fst_map_to_list. }
    destruct (lifecycle_Close_loop visited σ)
      as (σ' & Hrun & Hlife' & Hlog & Htrace); [done | | done |].
    { intros [p r]. apply Hvisited. }
    exists σ'. unfold do_call.
    assert (run NewDispatcherManager (ClientClose picks) σ = Some (σ', tt)) as ->
      by exact Hrun.
    assert (calls_in (ClientClose picks) σ = OnClose <$> visited.*2) as ->
      by exact Hlog.
    split; [done |]. split; [done |]. split_and!.
    + intros e He. rewrite Htrace, elem_of_app. by left.
    + intros c' (r & -> & ([p r'] & -> & He)%list_elem_of_fmap)%list_elem_of_fmap.
      simpl. by apply (Hopen r' p), Hvisited.
    + intros r (r0 & Heq & ([p r'] & -> & He)%list_elem_of_fmap)%list_elem_of_fmap.
      simpl in Heq. injection Heq as ->.
      rewrite Htrace, elem_of_app. right.
      apply list_elem_of_In, in_flat_map. exists (p, r').
      split; [by apply list_elem_of_In |]. simpl. by right; left.
    + assert (NoDup visited.*2) as Hnd2.
      { apply NoDup_fmap_2_strong; [| by eapply NoDup_fmap_1].
        intros [p1 r1] [p2 r2] H1%Hvisited H2%Hvisited Heq. simpl in Heq.
        subst r2. by rewrite (lifecycle_registry_inj σ p1 p2 r1 Hlife H1 H2). }
      intros i j r c Hi Hij Hj Hc.
      rewrite list_lookup_fmap in Hi, Hj.
      destruct (visited.*2 !! i) as [ri |] eqn:Hri; [| done].
      destruct (visited.*2 !! j) as [rj |] eqn:Hrj; [| done].
      simpl in Hi, Hj. simplify_eq/=.
      pose proof (NoDup_lookup _ _ _ _ Hnd2 Hri Hrj). lia.
Qed.

(** X9: under one caller the client never calls a manager it has closed:
    among the calls that any sequence of [Register], [Deregister] and
    [Close] on a new client makes on its managers ([Run], [Add], [Remove],
    [Num] and [Close]), the [Close] of a manager is the last call on it. *)
Theorem no_call_on_closed_manager (f : Factory) (role : string) (nodeID : Z)
    (l : list client_call) :
  ∃ σ,
    calls_from l (NewClient f role nodeID) = Some σ
    ∧ ∀ i j r c,
        log_of_all l (NewClient f role nodeID) !! i = Some (OnClose r) →
        (i < j)%nat →
        log_of_all l (NewClient f role nodeID) !! j = Some c →
        callee c ≠ r.
Proof.
  assert (∀ (t : list manager_call) (σ0 : world''),
            lifecycle σ0 →
            no_call_after_close t →
            (∀ r, OnClose r ∈ t → EvClose r ∈ trace σ0) →
            ∃ σ, calls_from l σ0 = Some σ
                 ∧ no_call_after_close (t ++ log_of_all l σ0)) as Hgen.
  { induction l as [| c l IH]; intros t σ0 Hlife Ht Hclosed; simpl.
    - exists σ0. by rewrite app_nil_r.
    - destruct (call_log c σ0 Hlife)
        as (σ1 & Hcall & Hlife1 & Hgrow & Hopen & Hdone & Hnew).
      rewrite Hcall. rewrite app_assoc. apply IH; [done | |].
      + apply no_call_after_close_app; [done | | done].
        intros c' Hc' Hin. by apply (Hopen c' Hc'), Hclosed.
      + intros r [Hr | Hr]%elem_of_app; [by apply Hgrow, Hclosed | by apply Hdone]. }
  destruct (Hgen [] (NewClient f role nodeID)) as (σ & Hrun & Hlog).
  - apply lifecycle_NewClient.
  - intros i j r c Hi. by destruct i.
  - by intros r ?%elem_of_nil.
  - by exists σ.
Qed.

(** X7: whatever calls of [Register], [Deregister] and [Close] one caller
    makes on a new client, each returns, and afterwards every registered
    manager is allocated, was created for its topic and has not been
    closed; every manager the client has created had its control loop
    spawned exactly once, and is registered or has been closed: none is
    left running outside the registry. *)
Theorem managers_started_once_and_never_leaked (f : Factory) (role : string)
    (nodeID : Z) (l : list client_call) :
  ∃ σ,
    calls_from l (NewClient f role nodeID) = Some σ
    ∧ (∀ p r, managers (cl σ) !! p = Some r →
         is_Some (heap σ !! r)
         ∧ EvNew r p ∈ trace σ
         ∧ EvClose r ∉ trace σ)
    ∧ (∀ r, is_Some (heap σ !! r) →
         runs r (trace σ) = 1%nat
         ∧ ((∃ p, managers (cl σ) !! p = Some r) ∨ EvClose r ∈ trace σ)).
Proof.
  destruct (lifecycle_calls l _ (lifecycle_NewClient f role nodeID))
    as (σ & Hrun & Hlife).
  exists σ. split; [done |]. split.
  - intros p r Hp. split; [by apply (lifecycle_registered σ p) |].
    by apply Hlife.
  - by apply Hlife.
Qed.

(** X8: under one caller there is at most one live manager per topic: a
    manager that was created for a topic and has not been closed is the
    one the registry holds for that topic, and no manager is registered
    under two topics. *)
Theorem one_live_manager_per_topic (f : Factory) (role : string) (nodeID : Z)
    (l : list client_call) :
  ∃ σ,
    calls_from l (NewClient f role nodeID) = Some σ
    ∧ (∀ p r, EvNew r p ∈ trace σ → EvClose r ∉ trace σ →
         managers (cl σ) !! p = Some r)
    ∧ (∀ p1 p2 r, managers (cl σ) !! p1 = Some r →
         managers (cl σ) !! p2 = Some r → p1 = p2).
Proof.
  destruct (lifecycle_calls l _ (lifecycle_NewClient f role nodeID))
    as (σ & Hrun & Hev & Hreg & Halloc & Hnew).
  exists σ. split; [done |]. split.
  - intros p r Hcreated Hopen.
    destruct (Halloc r) as [_ [[p' Hp'] | Hclosed]];
      [by apply (Hev (EvNew r p)) | | done].
    destruct (Hreg p' r Hp') as [Hcreated' _].
    by rewrite (Hnew r p p' Hcreated Hcreated').
  - intros p1 p2 r H1 H2.
    destruct (Hreg p1 r H1) as [Hc1 _]. destruct (Hreg p2 r H2) as [Hc2 _].
    by apply (Hnew r).
Qed.

End Lifecycle.

(** * Properties of the NatsMQ package *)
Section NmqFacts.
Import nmq.
Variable Server : Type.
Variable NewServer : Options → option Server.
Variable ReadyForConnections : Server → Z → bool.

Abbreviation init := (MustInitNatsMQ Server NewServer ReadyForConnections).
Abbreviation package_calls :=
  (do_package_calls Server NewServer ReadyForConnections).

Lemma MustInitNatsMQ_sets_once (cfg : option NatsMQConfig)
    (g g' : globals Server) :
  init cfg g = Returned g' → once g' = true.
Proof.
  unfold MustInitNatsMQ. destruct (once g) eqn:Hg.
  - by intros [= <-].
  - destruct cfg as [c |]; [| done].
    destruct (NewServer (Opts c)) as [s |]; [| done].
    destruct (ReadyForConnections s (InitializeTimeout c)); [| done].
    by intros [= <-].
Qed.

(** X10: [MustInitNatsMQ] initialises once.  After a call that has
    returned, any further call returns at once and leaves [Nmq] and the
    server alone, whatever configuration it is given: a nil one, or one
    for which the server could not be made. *)
Theorem MustInitNatsMQ_only_once (cfg cfg' : option NatsMQConfig)
    (g g' : globals Server) :
  init cfg g = Returned g' → init cfg' g' = Returned g'.
Proof.
  intros Hdone%MustInitNatsMQ_sets_once. unfold MustInitNatsMQ.
  by rewrite Hdone.
Qed.

(** X11: [CloseNatsMQ] is final.  After an initialisation that returned,
    [CloseNatsMQ] shuts the server down, waits for it and sets [Nmq] to
    nil; a second [CloseNatsMQ] does nothing, and a later
    [MustInitNatsMQ] returns without making a server, so that [Nmq] stays
    nil. *)
Theorem CloseNatsMQ_is_final (cfg cfg' : option NatsMQConfig)
    (g g' : globals Server) (s : Server) :
  init cfg g = Returned g' →
  Nmq g' = Some s →
  let closed := CloseNatsMQ Server g' in
  Nmq closed = None
  ∧ calls closed = calls g' ++ [ShutDown s; WaitedForShutdown s]
  ∧ CloseNatsMQ Server closed = closed
  ∧ init cfg' closed = Returned closed.
Proof.
  intros Hdone%MustInitNatsMQ_sets_once Hs closed.
  subst closed. unfold CloseNatsMQ, MustInitNatsMQ. rewrite Hs. simpl.
  by rewrite Hdone.
Qed.

(** X12: whatever calls of [MustInitNatsMQ] and [CloseNatsMQ] are made from
    the start of the program, if they all return then the package is in
    one of three states: untouched; one server started and held in [Nmq];
    or that one server started, shut down and waited for, with [Nmq] nil.
    So at most one server is ever started and it is shut down at most
    once. *)
Theorem package_states (l : list package_call) (g : globals Server) :
  package_calls l initial = Returned g →
  g = initial
  ∨ (∃ s, g = mkGlobals (Some s) true [Started s])
  ∨ (∃ s, g = mkGlobals None true
                [Started s; ShutDown s; WaitedForShutdown s]).
Proof.
  assert (∀ g0 : globals Server,
            (g0 = initial
             ∨ (∃ s, g0 = mkGlobals (Some s) true [Started s])
             ∨ (∃ s, g0 = mkGlobals None true
                            [Started s; ShutDown s; WaitedForShutdown s])) →
            package_calls l g0 = Returned g →
            g = initial
            ∨ (∃ s, g = mkGlobals (Some s) true [Started s])
            ∨ (∃ s, g = mkGlobals None true
                          [Started s; ShutDown s; WaitedForShutdown s])) as Hgen.
  { induction l as [| c l IH]; intros g0 Hg0; simpl.
    - by intros [= <-].
    - destruct c as [cfg |].
      + destruct (init cfg g0) as [g1 |] eqn:Hinit; [| done].
        apply IH. unfold MustInitNatsMQ in Hinit.
        destruct Hg0 as [-> | [[s ->] | [s ->]]]; simpl in Hinit.
        * destruct cfg as [c |]; [| done].
          destruct (NewServer (Opts c)) as [s |]; [| done].
          destruct (ReadyForConnections s (InitializeTimeout c)); [| done].
          injection Hinit as <-. right. left. by exists s.
        * injection Hinit as <-. right. left. by exists s.
        * injection Hinit as <-. right. right. by exists s.
      + apply IH. destruct Hg0 as [-> | [[s ->] | [s ->]]].
        * by left.
        * right. right. by exists s.
        * right. right. by exists s. }
  apply Hgen. by left.
Qed.

(** X13: [ParseServerOption] turns the configured number of milliseconds
    into a [time.Duration] by an [int64] multiplication.  For a number
    between -9223372036854 and 9223372036854 the timeout is that many
    milliseconds exactly; the other options are the configured values, and
    the host is the loopback address whatever is configured. *)
Theorem ParseServerOption_timeout (params : NatsmqCfg) :
  -9223372036854 ≤ ServerInitializeTimeout params ≤ 9223372036854 →
  InitializeTimeout (ParseServerOption params)
    = ServerInitializeTimeout params * Millisecond
  ∧ Host (Opts (ParseServerOption params)) = "127.0.0.1"
  ∧ Port (Opts (ParseServerOption params)) = ServerPort params
  ∧ JetStream (Opts (ParseServerOption params)) = true.
Proof.
  intros Hrange. split; [| done]. unfold ParseServerOption, wrap64, Millisecond.
  simpl. rewrite Z.mod_small; lia.
Qed.

End NmqFacts.

(** * Instances of the further theorems *)
Section ConcreteMore.
Import SpecManager Example.

Lemma two_topics_allocated (p : string) (r : mgr_ref) :
  managers (cl two_topics) !! p = Some r → is_Some (heap two_topics !! r).
Proof.
  intros Hp. apply elem_of_map_to_list in Hp. vm_compute in Hp.
  apply elem_of_cons in Hp as [[= -> ->] | Hp];
    [exists (manager_at two_topics 1); by vm_compute |].
  apply elem_of_cons in Hp as [[= -> ->] | Hp];
    [exists (manager_at two_topics 0); by vm_compute |].
  by apply elem_of_nil in Hp.
Defined.

Lemma Register_returns_Add_witness :
  manager_for NewDispatcherManager one_registered (ToPhysicalChannel "p0_v2")
    = (0%nat, Some manager_one)
  ∧ ∃ σ',
      sys_run (register "p0_v2" None SubscriptionPositionEarliest) one_registered
        = Some (σ', (Some 1%nat, None))
      ∧ managers (cl σ') = <["p0" := 0%nat]> (managers (cl one_registered)).
Proof.
  assert (manager_for NewDispatcherManager one_registered
            (ToPhysicalChannel "p0_v2") = (0%nat, Some manager_one)) as H1
    by reflexivity.
  split; [exact H1 |].
  destruct (Register_returns_Add
              (DispatcherManager0 := manager_DispatcherManager)
              ToPhysicalChannel NewDispatcherManager one_registered "p0_v2"
              None SubscriptionPositionEarliest 0%nat manager_one H1)
    as (σ' & pre & Hrun & Hok).
  exists σ'. split; [exact Hrun |]. exact (proj1 (Hok eq_refl)).
Defined.

Lemma other_topics_untouched_witness :
  manager_for NewDispatcherManager two_topics (ToPhysicalChannel "p0_v3")
    = (0%nat, Some manager_two)
  ∧ managers (cl two_topics) !! ToPhysicalChannel "p0_v1" = Some 0%nat
  ∧ heap two_topics !! 0%nat = Some manager_two
  ∧ (∃ σ' res,
       sys_run (register "p0_v3" None SubscriptionPositionEarliest) two_topics
         = Some (σ', res)
       ∧ managers (cl σ') !! "p1" = managers (cl two_topics) !! "p1"
       ∧ heap σ' !! 1%nat = heap two_topics !! 1%nat)
  ∧ (∃ σ',
       sys_run (deregister "p0_v1") two_topics = Some (σ', tt)
       ∧ managers (cl σ') !! "p1" = managers (cl two_topics) !! "p1"
       ∧ heap σ' !! 1%nat = heap two_topics !! 1%nat).
Proof.
  assert (manager_for NewDispatcherManager two_topics
            (ToPhysicalChannel "p0_v3") = (0%nat, Some manager_two)) as H1
    by reflexivity.
  assert (managers (cl two_topics) !! ToPhysicalChannel "p0_v1" = Some 0%nat)
    as H2 by reflexivity.
  assert (heap two_topics !! 0%nat = Some manager_two) as H3 by reflexivity.
  split_and!; [exact H1 | exact H2 | exact H3 | |].
  - destruct (proj1 (other_topics_untouched
                       (DispatcherManager0 := manager_DispatcherManager)
                       ToPhysicalChannel NewDispatcherManager two_topics "p0_v3")
                    None SubscriptionPositionEarliest 0%nat manager_two H1)
      as (σ' & res & Hrun & Hreg & Hheap).
    exists σ', res. split_and!; [exact Hrun | by apply Hreg | by apply Hheap].
  - destruct (proj2 (other_topics_untouched
                       (DispatcherManager0 := manager_DispatcherManager)
                       ToPhysicalChannel NewDispatcherManager two_topics "p0_v1")
                    0%nat manager_two H2 H3)
      as (σ' & Hrun & Hreg & Hheap).
    exists σ'. split_and!; [exact Hrun | by apply Hreg | by apply Hheap].
Defined.

Lemma Register_Deregister_round_trip_witness :
  managers (cl fresh_client) !! ToPhysicalChannel "p0_v1" = None
  ∧ Add manager_new "p0_v1" None SubscriptionPositionEarliest
    = (manager_one, (Some 0%nat, None))
  ∧ Num (Remove manager_one "p0_v1") = 0
  ∧ ∃ σ',
      sys_run (register "p0_v1" None SubscriptionPositionEarliest
               ≫= λ _, deregister "p0_v1") fresh_client = Some (σ', tt)
      ∧ cl σ' = cl fresh_client
      ∧ heap σ' = <[0%nat := Close (Remove manager_one "p0_v1")]> (heap fresh_client).
Proof.
  assert (managers (cl fresh_client) !! ToPhysicalChannel "p0_v1" = None) as H1
    by reflexivity.
  assert (Add manager_new "p0_v1" None SubscriptionPositionEarliest
          = (manager_one, (Some 0%nat, None))) as H2 by reflexivity.
  assert (Num (Remove manager_one "p0_v1") = 0) as H3 by reflexivity.
  split_and!; [exact H1 | exact H2 | exact H3 |].
  destruct (Register_Deregister_round_trip
              (DispatcherManager0 := manager_DispatcherManager)
              ToPhysicalChannel NewDispatcherManager fresh_client "p0_v1"
              None SubscriptionPositionEarliest manager_one (Some 0%nat)
              H1 H2 H3)
    as (σ' & Hrun & Hcl & Hheap & _).
  exists σ'. split_and!; assumption.
Defined.

Lemma nothing_left_after_Close_witness :
  (∀ p r, managers (cl two_topics) !! p = Some r →
          is_Some (heap two_topics !! r))
  ∧ ∃ σ1,
      sys_run (ClientClose [1%nat]) two_topics = Some (σ1, tt)
      ∧ sys_run (ClientClose []) σ1 = Some (σ1, tt)
      ∧ sys_run (deregister "p0_v1") σ1 = Some (σ1, tt).
Proof.
  split; [exact two_topics_allocated |].
  destruct (nothing_left_after_Close
              (DispatcherManager0 := manager_DispatcherManager)
              ToPhysicalChannel NewDispatcherManager [1%nat] two_topics
              two_topics_allocated)
    as (σ1 & Hrun & Hagain & Hdereg).
  exists σ1.
  split_and!; [exact Hrun | exact (Hagain []) | exact (Hdereg "p0_v1")].
Defined.

Lemma Register_after_Close_witness :
  (∀ p r, managers (cl two_topics) !! p = Some r →
          is_Some (heap two_topics !! r))
  ∧ ∃ σ1 σ2 res,
      sys_run (ClientClose [1%nat]) two_topics = Some (σ1, tt)
      ∧ sys_run (register "p0_v1" None SubscriptionPositionEarliest) σ1
        = Some (σ2, res)
      ∧ heap two_topics !! 2%nat = None
      ∧ created "p0" (trace σ2) = created "p0" (trace two_topics) ++ [2%nat].
Proof.
  split; [exact two_topics_allocated |].
  destruct (Register_after_Close
              (DispatcherManager0 := manager_DispatcherManager)
              ToPhysicalChannel NewDispatcherManager [1%nat] two_topics
              "p0_v1" None SubscriptionPositionEarliest two_topics_allocated)
    as (σ1 & σ2 & res & Hrun & Hreg & Hnew & _ & Hcreated & _).
  exists σ1, σ2, res. split_and!; assumption.
Defined.

(** The calls on managers of two registrations on two topics, the
    [Deregister] of the first and a [Close]: [Num] is read after
    [Remove], and each manager is closed once. *)
Lemma calls_of_all_example :
  calls_of_all (DispatcherManager0 := manager_DispatcherManager)
    ToPhysicalChannel NewDispatcherManager
    [CallRegister "p0_v1" None SubscriptionPositionEarliest;
     CallRegister "p1_v1" None SubscriptionPositionEarliest;
     CallDeregister "p0_v1";
     CallClose [0%nat]]
    fresh_client
  = [OnRun 0%nat; OnAdd 0%nat "p0_v1";
     OnRun 1%nat; OnAdd 1%nat "p1_v1";
     OnRemove 0%nat "p0_v1"; OnNum 0%nat; OnClose 0%nat;
     OnClose 1%nat].
Proof. by vm_compute. Qed.

Lemma Deregister_race_closes_new_target_witness :
  ToPhysicalChannel "p0_v2" = ToPhysicalChannel "p0_v1"
  ∧ managers (cl one_registered) !! ToPhysicalChannel "p0_v1" = Some 0%nat
  ∧ heap one_registered !! 0%nat = Some manager_one
  ∧ Num (Remove manager_one "p0_v1") = 0
  ∧ Add (Remove manager_one "p0_v1") "p0_v2" None SubscriptionPositionEarliest
    = (manager_readded, (Some 1%nat, None))
  ∧ Num manager_readded = 1
  ∧ ∃ σ',
      run_schedule NewDispatcherManager add_between_remove_and_close
        (one_registered, leaving_and_arriving)
      = Some (σ', [Ret None; Ret (Some (Some 1%nat, None))])
      ∧ managers (cl σ') !! "p0" = None
      ∧ heap σ' !! 0%nat = Some (Close manager_readded).
Proof.
  assert (ToPhysicalChannel "p0_v2" = ToPhysicalChannel "p0_v1") as H1
    by reflexivity.
  assert (managers (cl one_registered) !! ToPhysicalChannel "p0_v1"
          = Some 0%nat) as H2 by reflexivity.
  assert (heap one_registered !! 0%nat = Some manager_one) as H3 by reflexivity.
  assert (Num (Remove manager_one "p0_v1") = 0) as H4 by reflexivity.
  assert (Add (Remove manager_one "p0_v1") "p0_v2" None
              SubscriptionPositionEarliest
          = (manager_readded, (Some 1%nat, None))) as H5 by reflexivity.
  split_and!; [exact H1 | exact H2 | exact H3 | exact H4 | exact H5
               | reflexivity |].
  destruct (Deregister_race_closes_new_target
              (DispatcherManager0 := manager_DispatcherManager)
              ToPhysicalChannel NewDispatcherManager one_registered
              "p0_v1" "p0_v2" None SubscriptionPositionEarliest 0%nat
              manager_one manager_readded (Some 1%nat) H1 H2 H3 H4 H5)
    as (σ' & Hrun & Hgone & Hclosed & _).
  exists σ'. split_and!; assumption.
Defined.

Lemma MustInitNatsMQ_only_once_witness :
  nmq.MustInitNatsMQ nmq.Options nmq.example_NewServer nmq.example_Ready
    (Some nmq.default_config) nmq.initial = nmq.Returned nmq.default_started
  ∧ nmq.MustInitNatsMQ nmq.Options nmq.example_NewServer nmq.example_Ready
      (Some nmq.bad_config) nmq.initial = nmq.Aborted
  ∧ nmq.MustInitNatsMQ nmq.Options nmq.example_NewServer nmq.example_Ready
      (Some nmq.bad_config) nmq.default_started
    = nmq.Returned nmq.default_started.
Proof.
  assert (nmq.MustInitNatsMQ nmq.Options nmq.example_NewServer
            nmq.example_Ready (Some nmq.default_config) nmq.initial
          = nmq.Returned nmq.default_started) as H1 by reflexivity.
  split_and!; [exact H1 | reflexivity |].
  exact (MustInitNatsMQ_only_once nmq.Options nmq.example_NewServer
           nmq.example_Ready (Some nmq.default_config) (Some nmq.bad_config)
           nmq.initial nmq.default_started H1).
Defined.

Lemma CloseNatsMQ_is_final_witness :
  nmq.MustInitNatsMQ nmq.Options nmq.example_NewServer nmq.example_Ready
    (Some nmq.default_config) nmq.initial = nmq.Returned nmq.default_started
  ∧ nmq.Nmq nmq.default_started = Some (nmq.Opts nmq.default_config)
  ∧ nmq.Nmq (nmq.CloseNatsMQ nmq.Options nmq.default_started) = None
  ∧ nmq.MustInitNatsMQ nmq.Options nmq.example_NewServer nmq.example_Ready
      (Some nmq.default_config)
      (nmq.CloseNatsMQ nmq.Options nmq.default_started)
    = nmq.Returned (nmq.CloseNatsMQ nmq.Options nmq.default_started).
Proof.
  assert (nmq.MustInitNatsMQ nmq.Options nmq.example_NewServer
            nmq.example_Ready (Some nmq.default_config) nmq.initial
          = nmq.Returned nmq.default_started) as H1 by reflexivity.
  assert (nmq.Nmq nmq.default_started = Some (nmq.Opts nmq.default_config))
    as H2 by reflexivity.
  split_and!; [exact H1 | exact H2 | |].
  - exact (proj1 (CloseNatsMQ_is_final nmq.Options nmq.example_NewServer
                    nmq.example_Ready (Some nmq.default_config)
                    (Some nmq.default_config) nmq.initial nmq.default_started
                    (nmq.Opts nmq.default_config) H1 H2)).
  - exact (proj2 (proj2 (proj2
             (CloseNatsMQ_is_final nmq.Options nmq.example_NewServer
                nmq.example_Ready (Some nmq.default_config)
                (Some nmq.default_config) nmq.initial nmq.default_started
                (nmq.Opts nmq.default_config) H1 H2)))).
Defined.

Lemma package_states_witness :
  nmq.do_package_calls nmq.Options nmq.example_NewServer nmq.example_Ready
    nmq.start_close_restart nmq.initial
  = nmq.Returned (nmq.CloseNatsMQ nmq.Options nmq.default_started)
  ∧ (nmq.CloseNatsMQ nmq.Options nmq.default_started = nmq.initial
     ∨ (∃ s, nmq.CloseNatsMQ nmq.Options nmq.default_started
             = nmq.mkGlobals (Some s) true [nmq.Started s])
     ∨ (∃ s, nmq.CloseNatsMQ nmq.Options nmq.default_started
             = nmq.mkGlobals None true
                 [nmq.Started s; nmq.ShutDown s; nmq.WaitedForShutdown s])).
Proof.
  assert (nmq.do_package_calls nmq.Options nmq.example_NewServer
            nmq.example_Ready nmq.start_close_restart nmq.initial
          = nmq.Returned (nmq.CloseNatsMQ nmq.Options nmq.default_started))
    as H1 by reflexivity.
  split; [exact H1 |].
  exact (package_states nmq.Options nmq.example_NewServer nmq.example_Ready
           nmq.start_close_restart _ H1).
Defined.

Lemma ParseServerOption_timeout_witness :
  -9223372036854 ≤ nmq.ServerInitializeTimeout nmq.default_params
                 ≤ 9223372036854
  ∧ nmq.InitializeTimeout (nmq.ParseServerOption nmq.default_params)
    = 4000 * nmq.Millisecond
  ∧ nmq.Port (nmq.Opts (nmq.ParseServerOption nmq.default_params)) = 4222.
Proof.
  assert (-9223372036854 ≤ nmq.ServerInitializeTimeout nmq.default_params
                         ≤ 9223372036854) as H1 by (vm_compute; split; discriminate).
  split; [exact H1 |].
  destruct (ParseServerOption_timeout nmq.default_params H1)
    as (Htimeout & _ & Hport & _).
  split; [exact Htimeout | exact Hport].
Defined.

End ConcreteMore.
